(** * thonky: the database handler ([bot/dbhandler.py])

    A shallow embedding of the row store of the bot, [DBHandler], and of the
    module-level helpers [dictify] and [get_check].

    - Python values are an inductive type; dictionaries are association
      lists in insertion order, because the order in which a dictionary is
      iterated decides the text of the statements that are built from it.
    - The psycopg2 cursor and connection are an interface ([Cursor]): the
      handler is verified against every implementation of it.
    - Methods are computations in a state-and-exception monad over a
      [world]: the connection, the store of dictionary objects that callers
      share with the handler, and the log of the calls made on the cursor. *)

From Stdlib Require Import ZArith String Ascii List Lia.
From stdpp Require Import base option list strings gmap pretty.

Set Warnings "-register-all".

Local Open Scope string_scope.

(** ** Python values *)

Module Py.

(** Hashable atoms: what a dictionary can be keyed by. *)
Inductive key : Type :=
  | KNone
  | KInt (z : Z)
  | KStr (s : string).

(** The values the handler moves around: [None], [int], [str], [list] (also
    standing for the tuples of a row) and [dict]. *)
Inductive value : Type :=
  | VNone
  | VInt (z : Z)
  | VStr (s : string)
  | VList (l : list value)
  | VDict (d : list (key * value)).

Definition pydict : Type := list (key * value).
Definition row : Type := list value.

Inductive exn : Type :=
  | IndexError
  | KeyError
  | TypeError
  | DriverError (msg : string)
  | InvalidReference.

Inductive result (A : Type) : Type :=
  | Ok (a : A)
  | Raise (e : exn).
Arguments Ok {A} a.
Arguments Raise {A} e.

#[global] Instance key_eq_dec : EqDecision key.
Proof. solve_decision. Defined.

#[global] Instance exn_eq_dec : EqDecision exn.
Proof. solve_decision. Defined.

Definition of_key (k : key) : value :=
  match k with
  | KNone => VNone
  | KInt z => VInt z
  | KStr s => VStr s
  end.

(** [hash(v)]: lists and dictionaries are unhashable. *)
Definition to_key (v : value) : result key :=
  match v with
  | VNone => Ok KNone
  | VInt z => Ok (KInt z)
  | VStr s => Ok (KStr s)
  | VList _ | VDict _ => Raise TypeError
  end.

(** [isinstance(v, dict)] *)
Definition is_dict (v : value) : bool :=
  match v with
  | VDict _ => true
  | _ => false
  end.

(** [v == s] for a string literal [s] *)
Definition eq_str (s : string) (v : value) : bool :=
  match v with
  | VStr t => String.eqb s t
  | _ => false
  end.

(** [s in l] for a string literal [s] *)
Definition contains_str (s : string) (l : list value) : bool :=
  existsb (eq_str s) l.

(** *** Dictionaries *)

(** [d.get(k)] *)
Fixpoint dict_get (d : pydict) (k : key) : option value :=
  match d with
  | [] => None
  | (k', v) :: d' => if decide (k' = k) then Some v else dict_get d' k
  end.

(** [d[k]] *)
Definition dict_getitem (d : pydict) (k : key) : result value :=
  match dict_get d k with
  | Some v => Ok v
  | None => Raise KeyError
  end.

(** [d[k] = v]: a key already present keeps its place, a new key goes last. *)
Fixpoint dict_set (d : pydict) (k : key) (v : value) : pydict :=
  match d with
  | [] => [(k, v)]
  | (k', v') :: d' =>
      if decide (k' = k) then (k', v) :: d' else (k', v') :: dict_set d' k v
  end.

(** [list(d)] and [list(d.values())] *)
Definition dict_keys (d : pydict) : list key := map fst d.
Definition dict_values (d : pydict) : list value := map snd d.

(** A dictionary holds each key once. *)
Definition wf_dict (d : pydict) : Prop := NoDup (dict_keys d).

(** *** Sequences *)

(** [l[i]] for [i >= 0] *)
Definition getitem {A : Type} (l : list A) (i : nat) : result A :=
  match nth_error l i with
  | Some x => Ok x
  | None => Raise IndexError
  end.

(** [bool(l)]: a sequence is true when it is not empty. *)
Definition truthy {A : Type} (l : list A) : bool :=
  match l with
  | [] => false
  | _ :: _ => true
  end.

(** [l.append(x)] *)
Definition append {A : Type} (l : list A) (x : A) : list A := (l ++ [x])%list.

(** [l[n:]] *)
Definition slice_from {A : Type} (n : nat) (l : list A) : list A := skipn n l.

(** *** Strings *)

(** [sep.join(items)]: every item has to be a [str]. *)
Fixpoint str_items (items : list value) : result (list string) :=
  match items with
  | [] => Ok []
  | VStr s :: rest =>
      match str_items rest with
      | Ok l => Ok (s :: l)
      | Raise e => Raise e
      end
  | _ :: _ => Raise TypeError
  end.

Fixpoint join_strings (sep : string) (l : list string) : string :=
  match l with
  | [] => ""
  | [s] => s
  | s :: rest => s ++ sep ++ join_strings sep rest
  end.

Definition str_join (sep : string) (items : list value) : result string :=
  match str_items items with
  | Ok l => Ok (join_strings sep l)
  | Raise e => Raise e
  end.

(** [s.replace(old, new)], scanning left to right for occurrences of [old]
    that do not overlap; [skip] counts the characters of a match still to
    be passed over. *)
Fixpoint replace_from (old new : string) (skip : nat) (s : string) : string :=
  match s with
  | EmptyString => EmptyString
  | String c rest =>
      match skip with
      | S k => replace_from old new k rest
      | O =>
          if String.prefix old s
          then new ++ replace_from old new (Nat.pred (String.length old)) rest
          else String c (replace_from old new 0 rest)
      end
  end.

Fixpoint intersperse_str (new s : string) : string :=
  match s with
  | EmptyString => new
  | String c rest => new ++ String c (intersperse_str new rest)
  end.

Definition str_replace (old new s : string) : string :=
  match old with
  | EmptyString => intersperse_str new s
  | String _ _ => replace_from old new 0 s
  end.

End Py.
Import Py.

(** ** The cursor, the store and the monad *)

(** A call made on the cursor or on the connection. [vars] is [None] when
    [execute] is given the statement alone. *)
Inductive event : Type :=
  | Execute (sql : string) (vars : option (list value))
  | Fetchall
  | Commit.

(** What the handler needs of psycopg2: [cursor.execute], [cursor.fetchall]
    and [conn.commit], each a step on the state [DB] of the connection that
    returns or raises. *)
Class Cursor (DB : Type) : Type := {
  cursor_execute : string -> option (list value) -> DB -> result unit * DB;
  cursor_fetchall : DB -> result (list row) * DB;
  conn_commit : DB -> result unit * DB
}.

(** Dictionary objects that a caller hands to the handler live in a store
    and are passed by reference. *)
Abbreviation loc := positive.

Record world (DB : Type) : Type := World {
  conn : DB;
  store : gmap loc pydict;
  calls : list event
}.
Arguments World {DB} conn store calls.
Arguments conn {DB} w.
Arguments store {DB} w.
Arguments calls {DB} w.

Definition M (DB A : Type) : Type := world DB -> result A * world DB.

Definition ret {DB A : Type} (a : A) : M DB A := fun w => (Ok a, w).

Definition bind {DB A B : Type} (m : M DB A) (k : A -> M DB B) : M DB B :=
  fun w =>
    match m w with
    | (Ok a, w') => k a w'
    | (Raise e, w') => (Raise e, w')
    end.

Definition result_bind {A B : Type} (r : result A) (k : A -> result B) : result B :=
  match r with
  | Ok a => k a
  | Raise e => Raise e
  end.

(** A computation that touches neither the cursor nor the store. *)
Definition lift {DB A : Type} (r : result A) : M DB A := fun w => (r, w).

Declare Scope py_scope.
Delimit Scope py_scope with py.
Notation "x <- m ;; k" := (bind m (fun x => k))
  (at level 100, m at next level, right associativity) : py_scope.
Notation "m ;; k" := (bind m (fun _ => k))
  (at level 100, right associativity) : py_scope.
Notation "x <~ r ;; k" := (result_bind r (fun x => k))
  (at level 100, r at next level, right associativity) : py_scope.
Local Open Scope py_scope.

(** A list comprehension whose element expression can raise. *)
Fixpoint comprehension {A B : Type} (f : A -> result B) (l : list A) : result (list B) :=
  match l with
  | [] => Ok []
  | x :: rest =>
      y <~ f x ;;
      ys <~ comprehension f rest ;;
      Ok (y :: ys)
  end.

(** A [for] loop over [items] that threads the variables [s] it assigns. *)
Fixpoint for_each {A S : Type} (items : list A) (body : S -> A -> result S) (s : S) : result S :=
  match items with
  | [] => Ok s
  | x :: rest =>
      s' <~ body s x ;;
      for_each rest body s'
  end.

(** ** Operations on objects of any type

    The statements of the callers that subscript, iterate or test a value
    whose type is decided at run time. *)

(** [bool(v)] *)
Definition truthy_value (v : value) : bool :=
  match v with
  | VNone => false
  | VInt z => negb (Z.eqb z 0)
  | VStr s => negb (String.eqb s "")
  | VList l => truthy l
  | VDict d => truthy d
  end.

(** The position an index [i] stands for in a sequence of length [len]:
    a negative index counts from the end. *)
Definition norm_index (len : nat) (i : Z) : result nat :=
  if (0 <=? i)%Z
  then if (i <? Z.of_nat len)%Z then Ok (Z.to_nat i) else Raise IndexError
  else if (0 <=? Z.of_nat len + i)%Z
       then Ok (Z.to_nat (Z.of_nat len + i)) else Raise IndexError.

(** [del d[k]] on a dictionary *)
Fixpoint dict_del (d : pydict) (k : key) : result pydict :=
  match d with
  | [] => Raise KeyError
  | (k', v) :: d' =>
      if decide (k' = k) then Ok d'
      else
        d'' <~ dict_del d' k ;;
        Ok ((k', v) :: d'')
  end.

(** [l] without the element at position [n] *)
Fixpoint list_del {A : Type} (l : list A) (n : nat) : list A :=
  match l, n with
  | [], _ => []
  | _ :: rest, O => rest
  | x :: rest, S n' => x :: list_del rest n'
  end.

(** [l] with the element at position [n] replaced *)
Fixpoint list_set {A : Type} (l : list A) (n : nat) (y : A) : list A :=
  match l, n with
  | [], _ => []
  | _ :: rest, O => y :: rest
  | x :: rest, S n' => x :: list_set rest n' y
  end.

(** [list(v)]: what a [for] loop over [v] goes through *)
Definition py_iter (v : value) : result (list value) :=
  match v with
  | VDict d => Ok (map of_key (dict_keys d))
  | VList l => Ok l
  | VStr s => Ok (map (fun c => VStr (String c "")) (list_ascii_of_string s))
  | VNone | VInt _ => Raise TypeError
  end.

(** [c[k]] *)
Definition py_getitem (c k : value) : result value :=
  match c with
  | VDict d =>
      k' <~ to_key k ;;
      dict_getitem d k'
  | VList l =>
      match k with
      | VInt i =>
          n <~ norm_index (length l) i ;;
          getitem l n
      | _ => Raise TypeError
      end
  | VStr s =>
      match k with
      | VInt i =>
          n <~ norm_index (String.length s) i ;;
          match String.get n s with
          | Some ch => Ok (VStr (String ch ""))
          | None => Raise IndexError
          end
      | _ => Raise TypeError
      end
  | VNone | VInt _ => Raise TypeError
  end.

(** [c[k] = v], giving the object after the assignment *)
Definition py_setitem (c k v : value) : result value :=
  match c with
  | VDict d =>
      k' <~ to_key k ;;
      Ok (VDict (dict_set d k' v))
  | VList l =>
      match k with
      | VInt i =>
          n <~ norm_index (length l) i ;;
          Ok (VList (list_set l n v))
      | _ => Raise TypeError
      end
  | VStr _ | VNone | VInt _ => Raise TypeError
  end.

(** [del c[k]], giving the object after the deletion *)
Definition py_delitem (c k : value) : result value :=
  match c with
  | VDict d =>
      k' <~ to_key k ;;
      d' <~ dict_del d k' ;;
      Ok (VDict d')
  | VList l =>
      match k with
      | VInt i =>
          n <~ norm_index (length l) i ;;
          Ok (VList (list_del l n))
      | _ => Raise TypeError
      end
  | VStr _ | VNone | VInt _ => Raise TypeError
  end.

(** [[x for x in l if cond(x)]] where the condition can raise *)
Fixpoint comprehension_if {A : Type} (cond : A -> result bool) (l : list A)
    : result (list A) :=
  match l with
  | [] => Ok []
  | x :: rest =>
      b <~ cond x ;;
      xs <~ comprehension_if cond rest ;;
      Ok (if b : bool then x :: xs else xs)
  end.

(** ** The handler *)

Definition nl : string := String "010"%char "".
Definition dquote : string := String "034"%char "".

(** The indentation of the continuation lines of the statements, which are
    written as triple-quoted literals. *)
Definition indent : string := "                ".

(** [enumerate(l)] *)
Definition enumerate {A : Type} (l : list A) : list (nat * A) :=
  combine (seq 0 (length l)) l.

Definition dictify (data : list value) (fields : list value) : result pydict :=
  for_each (enumerate fields)
    (fun formatted_data '(i, key) =>
       x <~ getitem data i ;;
       k <~ to_key key ;;
       Ok (dict_set formatted_data k x))
    [].

Definition get_check (field_name : string) (case_sensitive : bool) : string :=
  if case_sensitive
  then "WHERE " ++ field_name ++ " = %s"
  else "WHERE LOWER(" ++ field_name ++ ") = LOWER(%s)".

Definition server_id_check (guild_id : Z) : string :=
  "AND server_id = '" ++ pretty guild_id ++ "'".

Module DBHandler.
Section Methods.

Context {DB : Type} `{Cursor DB}.

(** [str(v)], the string representation the interpreter gives a value. *)
Variable py_str : value -> string.

Definition execute (sql : string) (vars : option (list value)) : M DB unit :=
  fun w =>
    let (r, c) := cursor_execute sql vars (conn w) in
    (r, World c (store w) (append (calls w) (Execute sql vars))).

Definition fetchall : M DB (list row) :=
  fun w =>
    let (r, c) := cursor_fetchall (conn w) in
    (r, World c (store w) (append (calls w) Fetchall)).

Definition commit : M DB unit :=
  fun w =>
    let (r, c) := conn_commit (conn w) in
    (r, World c (store w) (append (calls w) Commit)).

(** The dictionary a reference points to. A Python name always holds an
    object; the model stops with [InvalidReference] at a location that
    holds none. *)
Definition deref (l : loc) : M DB pydict :=
  fun w =>
    match store w !! l with
    | Some d => (Ok d, w)
    | None => (Raise InvalidReference, w)
    end.

(** [l[k] = v] on the object itself: every holder of [l] sees it. *)
Definition setitem (l : loc) (k : key) (v : value) : M DB unit :=
  d <- deref l ;;
  fun w => (Ok tt, World (conn w) (<[l := dict_set d k v]> (store w)) (calls w)).

Definition catalog_query (table_name : string) : string :=
  nl ++ indent ++ "SELECT column_name FROM information_schema.columns" ++
  nl ++ indent ++ "WHERE table_name='" ++ table_name ++ "'".

Definition _get_table_fields (table_name : string) : M DB (list value) :=
  execute (catalog_query table_name) None ;;
  rows <- fetchall ;;
  fields <- lift (comprehension (fun field => getitem field 0) rows) ;;
  let fields :=
    if contains_str "server_id" fields then slice_from 1 fields else fields in
  ret fields.

Definition _format_sql_data (table_name : string) : M DB (list pydict) :=
  data <- fetchall ;;
  fields <- _get_table_fields table_name ;;
  if negb (truthy data) then ret []
  else if Nat.ltb 1 (length data)
  then lift (comprehension (fun entry => dictify (slice_from 1 entry) fields) data)
  else
    first <- lift (getitem data 0) ;;
    d <- lift (dictify (slice_from 1 first) fields) ;;
    ret [d].

Definition search_query (table_name check extra_query : string) : string :=
  nl ++ indent ++ "SELECT * FROM " ++ table_name ++
  nl ++ indent ++ check ++ " " ++ extra_query ++
  nl ++ indent.

(** The result is a list of dictionaries, a single dictionary, or the empty
    list. *)
Definition _search (table_name field_name : string) (value : value)
    (case_sensitive : bool) (extra_query : string) (all_results : bool) : M DB Py.value :=
  let check := get_check field_name case_sensitive in
  execute (search_query table_name check extra_query) (Some [value]) ;;
  results <- _format_sql_data table_name ;;
  if truthy results
  then
    if all_results
    then ret (VList (map VDict results))
    else
      first <- lift (getitem results 0) ;;
      ret (VDict first)
  else ret (VList (map VDict results)).

Definition update_query (table_name update_string check extra_query : string) : string :=
  nl ++ indent ++ "UPDATE " ++ table_name ++
  nl ++ indent ++ update_string ++
  nl ++ indent ++ check ++ " " ++ extra_query ++
  nl ++ indent.

Definition _update_many (table_name check_field : string) (check_value : value)
    (updates : pydict) (case_sensitive : bool) (extra_query : string) : M DB unit :=
  let check := get_check check_field case_sensitive in
  lists <-
    lift (for_each (dict_keys updates)
            (fun '(update_fields, update_values) key =>
               x <~ dict_getitem updates key ;;
               Ok (append update_fields (of_key key), append update_values x))
            ([], [])) ;;
  let '(update_fields, update_values) := lists in
  update_string <- lift (str_join " AND " update_fields) ;;
  let update_values := append update_values check_value in
  execute (update_query table_name update_string check extra_query) (Some update_values) ;;
  commit.

Definition _update (table_name check_field : string) (check_value : value)
    (update_field : string) (update_value : value)
    (case_sensitive : bool) (extra_query : string) : M DB unit :=
  _update_many table_name check_field check_value [(KStr update_field, update_value)]
    case_sensitive extra_query.

Definition parenthesise (items : list value) : result string :=
  s <~ str_join ", " items ;;
  Ok ("(" ++ s ++ ")").

Definition _add (table_name : string) (guild_id : Z) (given_values : loc) : M DB unit :=
  setitem given_values (KStr "server_id") (VInt guild_id) ;;
  d <- deref given_values ;;
  lists <-
    lift (for_each (dict_keys d)
            (fun '(fields, values) key =>
               value <~ dict_getitem d key ;;
               if is_dict value
               then Ok (append fields (of_key key),
                        append values (VStr (str_replace "'" dquote (py_str value))))
               else Ok (append fields (of_key key), append values value))
            ([], [])) ;;
  let '(fields, values) := lists in
  formatted_fields <- lift (parenthesise (map of_key (dict_keys d))) ;;
  let tuple_values := values in
  value_blanks <- lift (parenthesise (map (fun _ => VStr "%s") values)) ;;
  execute ("INSERT INTO " ++ table_name ++ " " ++ formatted_fields ++
           " VALUES " ++ value_blanks) (Some tuple_values) ;;
  commit.

(** *** The accessors *)

(** A dictionary object the caller has just built. *)
Definition alloc (d : pydict) : M DB loc :=
  fun w =>
    let l := stdpp.base.fresh (dom (store w)) in
    (Ok l, World (conn w) (<[l := d]> (store w)) (calls w)).

(** [self._add(table_name, guild_id, obj)] for an object built by the
    caller. On anything but a dictionary the first statement of [_add], the
    assignment to [given_values['server_id']], raises. *)
Definition add_object (table_name : string) (guild_id : Z) (given_values : value)
    : M DB unit :=
  match given_values with
  | VDict d =>
      l <- alloc d ;;
      _add table_name guild_id l
  | VList _ | VStr _ | VNone | VInt _ => lift (Raise TypeError)
  end.

Definition get_server_config (server_id : Z) : M DB value :=
  _search "server_config" "server_id" (VInt server_id) true "" false.

Definition _get_template_config : M DB value :=
  template_config <- get_server_config 0 ;;
  keys <- lift (py_iter template_config) ;;
  empty_keys <-
    lift (comprehension_if
            (fun key =>
               x <~ py_getitem template_config key ;;
               Ok (negb (truthy_value x)))
            keys) ;;
  lift (for_each empty_keys
          (fun template_config key => py_delitem template_config key)
          template_config).

Definition update_server_config (server_id : Z) (key : string) (value : value)
    : M DB unit :=
  _update "server_config" "server_id" (VInt server_id) key value true "".

Definition add_server_config (server_id : Z) : M DB unit :=
  template_config <- _get_template_config ;;
  add_object "server_config" server_id template_config.

Definition get_team_config (guild_id : Z) (team_name : string) : M DB value :=
  _search "teams" "team_name" (VStr team_name) false (server_id_check guild_id) false.

Definition get_teams (guild_id : Z) : M DB value :=
  _search "teams" "server_id" (VInt guild_id) true "" true.

Definition update_team_config (guild_id : Z) (team_name key : string) (value : value)
    : M DB unit :=
  _update "teams" "team_name" (VStr team_name) key value true (server_id_check guild_id).

Definition add_team_config (guild_id : Z) (team_name : string) (channel : Z)
    : M DB unit :=
  template_config <- _get_template_config ;;
  template_config <- lift (py_setitem template_config (VStr "team_name") (VStr team_name)) ;;
  template_config <- lift (py_setitem template_config (VStr "channels") (VList [VInt channel])) ;;
  add_object "teams" guild_id template_config.

Definition get_player_data (server_id : Z) (name date : string) : M DB value :=
  let date_check :=
    if truthy_value (VStr date) then "AND date = '" ++ date ++ "'" else "" in
  let extra_query := server_id_check server_id ++ " " ++ date_check in
  _search "player_data" "name" (VStr name) false extra_query false.

Definition add_player_data (server_id : Z) (name date : string) (availability : value)
    : M DB unit :=
  add_object "player_data" server_id
    (VDict [(KStr "name", VStr name); (KStr "date", VStr date);
            (KStr "availability", availability)]).

(** [last_saved] stands for [strip_microseconds(datetime.now()).isoformat()],
    the time of the call as text. *)
Definition update_sheet_cache (last_saved : string) (server_id : Z)
    (team_name key : string) (value : value) : M DB unit :=
  let id_check := server_id_check server_id in
  found <- _search "cache" "team_name" (VStr team_name) true id_check false ;;
  if negb (truthy_value found)
  then
    add_object "cache" server_id
      (VDict (dict_set (dict_set [] (KStr key) value)
                (KStr "last_saved") (VStr last_saved)))
  else
    _update_many "cache" "team_name" (VStr team_name)
      (dict_set (dict_set [] (KStr key) value) (KStr "last_saved") (VStr last_saved))
      true id_check.

End Methods.
End DBHandler.

(** ** The start-up script ([run.py])

    [config_docs] are the documents of [config.yaml] and [argv] is
    [sys.argv]. The script prints, then picks the token it hands to [Bot];
    the result is what was printed and the token, or the exception. *)

Module Run.

Definition token (config_docs : list value) (argv : list string)
    : list string * result value :=
  match getitem config_docs 0 with
  | Raise e => ([], Raise e)
  | Ok config =>
      if Nat.eqb (length argv) 1
      then
        (["Starting bot with main token."],
         tokens <~ py_getitem config (VStr "tokens") ;;
         py_getitem tokens (VStr "main_token"))
      else
        match getitem argv 1 with
        | Raise e => ([], Raise e)
        | Ok arg =>
            if String.eqb arg "test"
            then
              (["Starting bot with test token."],
               tokens <~ py_getitem config (VStr "tokens") ;;
               py_getitem tokens (VStr "test_token"))
            else ([], Ok VNone)
        end
  end.

End Run.

(** ** A scripted cursor

    A test double for the driver: every [execute] consumes the next scripted
    reply, which is an error or the result set of the statement ([None] for
    a statement that returns no rows); [fetchall] hands out the rows of the
    current result set once. *)

Record script : Type := Script {
  replies : list (result (option (list row)));
  current : option (list row)
}.

Definition script_execute (sql : string) (vars : option (list value)) (s : script)
    : result unit * script :=
  match replies s with
  | [] => (Raise (DriverError "connection closed"), s)
  | Ok rows :: rest => (Ok tt, Script rest rows)
  | Raise e :: rest => (Raise e, Script rest None)
  end.

Definition script_fetchall (s : script) : result (list row) * script :=
  match current s with
  | Some rows => (Ok rows, Script (replies s) (Some []))
  | None => (Raise (DriverError "no results to fetch"), s)
  end.

Definition script_commit (s : script) : result unit * script := (Ok tt, s).

#[global] Instance script_cursor : Cursor script := {
  cursor_execute := script_execute;
  cursor_fetchall := script_fetchall;
  conn_commit := script_commit
}.

(** *** [repr] on ASCII text

    The representation CPython gives the values of the model when their
    strings are ASCII: a string goes between single quotes unless it holds a
    single quote and no double quote. *)

Fixpoint has_char (c : ascii) (s : string) : bool :=
  match s with
  | EmptyString => false
  | String c' rest => if Ascii.eqb c c' then true else has_char c rest
  end.

Definition hex_digit (n : nat) : ascii :=
  match String.get n "0123456789abcdef" with
  | Some c => c
  | None => "0"%char
  end.

Definition backslash : ascii := "092"%char.

Definition repr_char (quote c : ascii) : string :=
  let n := nat_of_ascii c in
  if Ascii.eqb c quote then String backslash (String c "")
  else if Ascii.eqb c backslash then String backslash (String backslash "")
  else if Ascii.eqb c "009"%char then String backslash "t"
  else if Ascii.eqb c "010"%char then String backslash "n"
  else if Ascii.eqb c "013"%char then String backslash "r"
  else if (Nat.ltb n 32 || Nat.eqb n 127)%bool
  then String backslash
         (String "x"%char
            (String (hex_digit (Nat.div n 16)) (String (hex_digit (Nat.modulo n 16)) "")))
  else String c "".

Definition repr_str (s : string) : string :=
  let quote :=
    if (has_char "'"%char s && negb (has_char "034"%char s))%bool
    then "034"%char else "'"%char in
  String quote
    (String.concat "" (map (repr_char quote) (list_ascii_of_string s)) ++ String quote "").

Definition repr_key (k : key) : string :=
  match k with
  | KNone => "None"
  | KInt z => pretty z
  | KStr s => repr_str s
  end.

Fixpoint repr (v : value) : string :=
  match v with
  | VNone => "None"
  | VInt z => pretty z
  | VStr s => repr_str s
  | VList l => "[" ++ join_strings ", " (map repr l) ++ "]"
  | VDict d =>
      "{" ++ join_strings ", " (map (fun kv => repr_key (fst kv) ++ ": " ++ repr (snd kv)) d) ++ "}"
  end.

(** ** What the driver answers to a statement

    [query sql vars c] is the driver's side of "execute, then fetch all":
    the rows it hands back for the statement, and the connection after. *)

Definition query {DB : Type} `{Cursor DB} (sql : string) (vars : option (list value)) (c : DB)
    : result (list row) * DB :=
  match cursor_execute sql vars c with
  | (Ok _, c') => cursor_fetchall c'
  | (Raise e, c') => (Raise e, c')
  end.

(** The rows of a catalog listing: one column, the column name. *)
Definition catalog_rows (names : list value) : list row := map (fun n => [n]) names.

(** ** What [_add] is meant to bind *)

Fixpoint map_string (f : ascii -> ascii) (s : string) : string :=
  match s with
  | EmptyString => EmptyString
  | String c rest => String (f c) (map_string f rest)
  end.

(** Single quote to double quote, every other character as it is. *)
Definition swap_quote (c : ascii) : ascii :=
  if Ascii.eqb c "'"%char then "034"%char else c.

(** The value bound for [v]: a dictionary becomes text, its representation
    with the quotes swapped; any other value is bound as it is. *)
Definition bound_value (py_str : value -> string) (v : value) : value :=
  match v with
  | VDict _ => VStr (map_string swap_quote (py_str v))
  | _ => v
  end.

(** ** The rule for the field list as the specification words it

    "If the list's first entry is the synthetic leading identifier field,
    drops it", and otherwise returns the list unchanged. [is_identifier]
    says which fields count as that identifier. *)
Definition first_entry_rule (is_identifier : value -> bool) (names : list value)
    : list value :=
  match names with
  | first :: others => if is_identifier first then others else names
  | [] => []
  end.

(** ** The entries of a dictionary that have a true value *)
Definition filled (d : pydict) : pydict :=
  List.filter (fun kv => truthy_value (snd kv)) d.

(** ** Placeholders

    The number of [%s] in the text of a statement, which is the number of
    variables the driver expects with it; [%%] stands for a percent sign and
    is no placeholder. *)
Fixpoint count_placeholders (s : string) : nat :=
  match s with
  | EmptyString => 0
  | String c rest =>
      if Ascii.eqb c "%"%char
      then
        match rest with
        | EmptyString => 0
        | String c' rest' =>
            if Ascii.eqb c' "s"%char then S (count_placeholders rest')
            else if Ascii.eqb c' "%"%char then count_placeholders rest'
            else count_placeholders rest
        end
      else count_placeholders rest
  end.

(** A text without a percent sign. *)
Definition percent_free (s : string) : Prop := has_char "%"%char s = false.

(** ** Sample tables on the scripted cursor *)

Definition teams_columns : list string := ["id"; "server_id"; "team_name"].

Definition teams_rows : list row :=
  [[VInt 1; VInt 1001; VStr "alpha"]; [VInt 2; VInt 1001; VStr "beta"]].

(** A connection whose cursor holds [rows] and that answers the next
    statement with the listing of [columns]. *)
Definition fetched (rows : list row) (columns : list string) : script :=
  Script [Ok (Some (catalog_rows (map VStr columns)))] (Some rows).

(** A connection that answers the next statement with [rows] and the one
    after with the listing of [columns]. *)
Definition answering (rows : list row) (columns : list string) : script :=
  Script [Ok (Some rows); Ok (Some (catalog_rows (map VStr columns)))] None.

(** A connection that accepts one statement, which returns no rows. *)
Definition accepting : script := Script [Ok None] None.

Definition fresh (c : script) : world script := World c ∅ [].

(** The dictionary [add_player_data] builds, held at location 1. *)
Definition player_values : pydict :=
  [(KStr "name", VStr "O'Neil");
   (KStr "date", VStr "2019-07-01");
   (KStr "availability", VDict [(KStr "mon", VStr "yes"); (KStr "tue", VInt 0)])].

Definition player_world : world script :=
  World accepting {[ 1%positive := player_values ]} [].

(** The dictionary [update_sheet_cache] passes to [_update_many]. *)
Definition cache_updates : pydict :=
  [(KStr "players", VStr "{}"); (KStr "last_saved", VStr "2019-07-01T10:00:00")].

(** *** More sample data *)

Definition server_config_columns : list string := ["server_id"; "prefix"; "log_channel"].

(** The row of server 0, with no log channel set. *)
Definition template_row : row := [VInt 0; VStr "!"; VNone].

Definition cache_columns : list string :=
  ["id"; "server_id"; "team_name"; "players"; "last_saved"].

Definition cache_row : row :=
  [VInt 7; VInt 1001; VStr "alpha"; VStr "{}"; VStr "2019-06-30T09:00:00"].

(** A connection that answers a search with [rows], lists [columns], and
    accepts one more statement. *)
Definition answering_then_accepting (rows : list row) (columns : list string) : script :=
  Script [Ok (Some rows); Ok (Some (catalog_rows (map VStr columns))); Ok None] None.

(** A connection that refuses the next statement. *)
Definition refusing : script := Script [Raise (DriverError "syntax error")] None.

(** A connection on which the search matches no row and the catalog query
    that follows fails. *)
Definition catalog_down : script :=
  Script [Ok (Some []); Raise (DriverError "catalog down")] None.

(** A dictionary in which the caller has put a ['server_id'] of its own,
    held at location 1. *)
Definition claimed_values : pydict :=
  [(KStr "name", VStr "Ann"); (KStr "server_id", VInt 5); (KStr "date", VStr "2019-07-01")].

Definition claimed_world : world script :=
  World accepting {[ 1%positive := claimed_values ]} [].

(** A dictionary with a key that is not a string, held at location 1. *)
Definition odd_values : pydict := [(KInt 3, VNone)].

Definition odd_world : world script :=
  World accepting {[ 1%positive := odd_values ]} [].

(** A configuration document with both tokens. *)
Definition sample_config : value :=
  VDict [(KStr "tokens",
          VDict [(KStr "main_token", VStr "main"); (KStr "test_token", VStr "test")])].

(** ** Properties *)

(** *** Values and strings *)

Lemma replace_quote_map (s : string) :
  str_replace "'" dquote s = map_string swap_quote s.
Proof.
  unfold str_replace. induction s as [|c s IH]; [reflexivity|].
  cbn [replace_from map_string String.prefix String.length Nat.pred].
  unfold swap_quote at 1.
  destruct (ascii_dec "'" c) as [<-|Hne].
  - replace (String.prefix "" s) with true by (now destruct s).
    cbn. now rewrite IH.
  - destruct (Ascii.eqb_spec c "'"%char) as [->|_]; [congruence|].
    now rewrite IH.
Qed.

Lemma map_string_length (f : ascii -> ascii) (s : string) :
  String.length (map_string f s) = String.length s.
Proof. induction s; cbn; congruence. Qed.

Lemma str_items_strings (names : list string) :
  str_items (map VStr names) = Ok names.
Proof. induction names as [|n names IH]; cbn; [reflexivity|now rewrite IH]. Qed.

Lemma str_join_strings (sep : string) (names : list string) :
  str_join sep (map VStr names) = Ok (join_strings sep names).
Proof. unfold str_join. now rewrite str_items_strings. Qed.

Lemma of_key_KStr (names : list string) :
  map of_key (map KStr names) = map VStr names.
Proof. now rewrite map_map. Qed.

(** *** Dictionaries *)

Lemma dict_set_fresh (d : pydict) (k : key) (v : value) :
  k ∉ dict_keys d -> dict_set d k v = (d ++ [(k, v)])%list.
Proof.
  induction d as [|[k' v'] d IH]; cbn; intros Hk; [reflexivity|].
  apply not_elem_of_cons in Hk as [Hne Hk].
  destruct (decide (k' = k)) as [->|_]; [congruence|].
  now rewrite IH.
Qed.

Lemma dict_get_set_eq (d : pydict) (k : key) (v : value) :
  dict_get (dict_set d k v) k = Some v.
Proof.
  induction d as [|[k' v'] d IH]; cbn.
  - now destruct (decide (k = k)).
  - destruct (decide (k' = k)) as [->|Hne]; cbn.
    + now destruct (decide (k = k)).
    + now destruct (decide (k' = k)).
Qed.

Lemma dict_get_set_ne (d : pydict) (k k' : key) (v : value) :
  k <> k' -> dict_get (dict_set d k v) k' = dict_get d k'.
Proof.
  intros Hne. induction d as [|[k0 v0] d IH]; cbn.
  - now destruct (decide (k = k')).
  - destruct (decide (k0 = k)) as [->|H0]; cbn.
    + now destruct (decide (k = k')).
    + now rewrite IH.
Qed.

Lemma dict_keys_set_present (d : pydict) (k : key) (v : value) :
  k ∈ dict_keys d -> dict_keys (dict_set d k v) = dict_keys d.
Proof.
  induction d as [|[k' v'] d IH]; cbn; intros Hin.
  - now apply elem_of_nil in Hin.
  - destruct (decide (k' = k)) as [->|Hne]; cbn; [reflexivity|].
    f_equal. apply IH. apply elem_of_cons in Hin as [->|Hin]; [congruence|assumption].
Qed.

Lemma dict_keys_set_fresh (d : pydict) (k : key) (v : value) :
  k ∉ dict_keys d -> dict_keys (dict_set d k v) = (dict_keys d ++ [k])%list.
Proof.
  intros Hk. rewrite dict_set_fresh by assumption.
  unfold dict_keys. now rewrite map_app.
Qed.

Lemma wf_dict_set (d : pydict) (k : key) (v : value) :
  wf_dict d -> wf_dict (dict_set d k v).
Proof.
  unfold wf_dict. intros Hnd.
  destruct (decide (k ∈ dict_keys d)) as [Hin|Hin].
  - now rewrite dict_keys_set_present.
  - rewrite dict_keys_set_fresh by assumption.
    apply NoDup_app. repeat split; [assumption| |apply NoDup_singleton].
    intros x Hx Hx'. apply list_elem_of_singleton in Hx' as ->. contradiction.
Qed.

Lemma dict_get_in (d : pydict) (k : key) (v : value) :
  wf_dict d -> (k, v) ∈ d -> dict_get d k = Some v.
Proof.
  unfold wf_dict. induction d as [|[k' v'] d IH]; cbn; intros Hnd Hin.
  - now apply elem_of_nil in Hin.
  - apply NoDup_cons in Hnd as [Hk' Hnd].
    apply elem_of_cons in Hin as [[= -> ->]|Hin].
    + now destruct (decide (k' = k')).
    + destruct (decide (k' = k)) as [->|_]; [|now apply IH].
      exfalso. apply Hk'. apply list_elem_of_In, in_map_iff.
      exists (k, v). split; [reflexivity|now apply list_elem_of_In].
Qed.

Lemma dict_get_absent (ks : list key) (vs : list value) (k : key) :
  k ∉ ks -> dict_get (combine ks vs) k = None.
Proof.
  revert vs. induction ks as [|k' ks IH]; intros [|v vs] Hk; cbn; try reflexivity.
  apply not_elem_of_cons in Hk as [Hne Hk].
  destruct (decide (k' = k)) as [->|_]; [congruence|].
  now apply IH.
Qed.

(** *** Loops *)

Lemma for_each_ext {A S : Type} (items : list A) (f g : S -> A -> result S) (s : S) :
  (forall s x, f s x = g s x) -> for_each items f s = for_each items g s.
Proof.
  intros Hfg. revert s. induction items as [|x items IH]; intros s; cbn; [reflexivity|].
  rewrite Hfg. destruct (g s x); cbn; [apply IH|reflexivity].
Qed.

(** Walking over the keys of a dictionary and looking each one up collects
    the keys and the values in the order of the dictionary. *)
Lemma collect_loop (g : value -> value) (d pre suf : pydict) (fs vs : list value) :
  d = (pre ++ suf)%list -> wf_dict d ->
  for_each (dict_keys suf)
    (fun '(fs, vs) key =>
       x <~ dict_getitem d key ;; Ok (append fs (of_key key), append vs (g x)))
    (fs, vs)
  = Ok ((fs ++ map of_key (dict_keys suf))%list, (vs ++ map g (dict_values suf))%list).
Proof.
  revert pre fs vs. induction suf as [|[k v] suf IH]; intros pre fs vs Hd Hwf; cbn.
  - now rewrite !app_nil_r.
  - unfold dict_getitem. rewrite (dict_get_in d k v Hwf); cbn.
    + rewrite (IH (pre ++ [(k, v)])%list).
      * unfold append. now rewrite <- !app_assoc.
      * now rewrite <- app_assoc.
      * assumption.
    + rewrite Hd. apply elem_of_app. right. apply elem_of_cons. now left.
Qed.

Lemma collect_dict (g : value -> value) (d : pydict) :
  wf_dict d ->
  for_each (dict_keys d)
    (fun '(fs, vs) key =>
       x <~ dict_getitem d key ;; Ok (append fs (of_key key), append vs (g x)))
    ([], [])
  = Ok (map of_key (dict_keys d), map g (dict_values d)).
Proof. intros Hwf. now apply (collect_loop g d [] d [] []). Qed.

Lemma skipn_nth_error {A : Type} (l : list A) (i : nat) (x : A) :
  nth_error l i = Some x -> skipn i l = x :: skipn (S i) l.
Proof.
  revert i. induction l as [|y l IH]; intros [|i] Hx; cbn in *; try discriminate.
  - now injection Hx as ->.
  - now apply IH.
Qed.

(** [dictify] when there are enough values: the keys paired with the values
    in order. *)
Lemma dictify_loop (data : list value) (names : list string) (i : nat) (acc : pydict) :
  NoDup (dict_keys acc ++ map KStr names) ->
  i + length names <= length data ->
  for_each (combine (seq i (length names)) (map VStr names))
    (fun formatted_data '(i, key) =>
       x <~ getitem data i ;;
       k <~ to_key key ;;
       Ok (dict_set formatted_data k x))
    acc
  = Ok (acc ++ combine (map KStr names) (skipn i data))%list.
Proof.
  revert i acc. induction names as [|n names IH]; intros i acc Hnd Hlen; cbn.
  - now rewrite app_nil_r.
  - cbn in Hlen. unfold getitem.
    destruct (nth_error data i) as [x|] eqn:Hx.
    2:{ apply nth_error_None in Hx. lia. }
    cbn. apply NoDup_app in Hnd as (Hacc & Hdisj & Hnames).
    apply NoDup_cons in Hnames as [Hn Hnames].
    rewrite dict_set_fresh.
    2:{ intros Hin. apply (Hdisj _ Hin). apply elem_of_cons. now left. }
    rewrite IH.
    + rewrite <- app_assoc. f_equal.
      rewrite (skipn_nth_error data i x Hx). reflexivity.
    + unfold dict_keys. rewrite map_app. cbn. rewrite <- app_assoc. cbn.
      apply NoDup_app. repeat split; [assumption| |now apply NoDup_cons].
      intros k Hk. now apply Hdisj.
    + lia.
Qed.

Lemma NoDup_KStr (names : list string) : NoDup names -> NoDup (map KStr names).
Proof.
  induction 1 as [|n names Hn Hnd IH]; cbn; constructor; [|assumption].
  intros Hin. apply Hn. apply list_elem_of_In, in_map_iff in Hin as (n' & [= ->] & Hin).
  now apply list_elem_of_In.
Qed.

Lemma elem_of_KStr (names : list string) (n : string) :
  KStr n ∈ map KStr names -> n ∈ names.
Proof.
  intros Hin. apply list_elem_of_In, in_map_iff in Hin as (n' & [= ->] & Hin).
  now apply list_elem_of_In.
Qed.

Lemma dictify_names (data : list value) (names : list string) :
  NoDup names -> length names <= length data ->
  dictify data (map VStr names) = Ok (combine (map KStr names) data).
Proof.
  intros Hnd Hlen. unfold dictify, enumerate. rewrite length_map.
  now rewrite (dictify_loop data names 0 []); [|apply NoDup_KStr|].
Qed.

(** [dictify] with more keys than values stops at the first key that has no
    value, or earlier at a key that cannot be hashed. *)
Lemma dictify_loop_short (data fields : list value) (i : nat) (acc : pydict) :
  i <= length data -> length data < i + length fields ->
  exists e,
    for_each (combine (seq i (length fields)) fields)
      (fun formatted_data '(i, key) =>
         x <~ getitem data i ;;
         k <~ to_key key ;;
         Ok (dict_set formatted_data k x))
      acc
    = Raise e.
Proof.
  revert i acc. induction fields as [|f fields IH]; intros i acc Hi Hlen; cbn in *; [lia|].
  unfold getitem. destruct (nth_error data i) as [x|] eqn:Hx; cbn; [|now eexists].
  destruct (to_key f) as [k|e]; cbn; [|now eexists].
  apply IH; [|lia].
  apply Nat.lt_le_incl in Hlen.
  assert (i < length data) by (apply nth_error_Some; congruence). lia.
Qed.

Lemma dictify_short (data fields : list value) :
  length data < length fields -> exists e, dictify data fields = Raise e.
Proof. intros Hlen. apply dictify_loop_short; cbn; lia. Qed.

Lemma comprehension_ok {A B : Type} (f : A -> result B) (g : A -> B) (l : list A) :
  (forall x, x ∈ l -> f x = Ok (g x)) -> comprehension f l = Ok (map g l).
Proof.
  induction l as [|x l IH]; intros Hf; cbn; [reflexivity|].
  rewrite Hf by (apply elem_of_cons; now left). cbn.
  rewrite IH; [reflexivity|].
  intros y Hy. apply Hf. apply elem_of_cons. now right.
Qed.

Lemma comprehension_raise {A B : Type} (f : A -> result B) (l : list A) :
  l <> [] -> (forall x, x ∈ l -> exists e, f x = Raise e) ->
  exists e, comprehension f l = Raise e.
Proof.
  destruct l as [|x l]; intros Hne Hf; [congruence|]. cbn.
  destruct (Hf x) as [e ->]; [apply elem_of_cons; now left|]. now exists e.
Qed.

Lemma comprehension_length {A B : Type} (f : A -> result B) (l : list A) (ys : list B) :
  comprehension f l = Ok ys -> length ys = length l.
Proof.
  revert ys. induction l as [|x l IH]; intros ys; cbn.
  - now intros [= <-].
  - destruct (f x) as [y|e]; cbn; [|discriminate].
    destruct (comprehension f l) as [ys'|e]; cbn; [|discriminate].
    intros [= <-]. cbn. f_equal. now apply IH.
Qed.

Lemma first_columns (names : list value) :
  comprehension (fun field => getitem field 0) (catalog_rows names) = Ok names.
Proof.
  induction names as [|n names IH]; cbn; [reflexivity|].
  fold (catalog_rows names). now rewrite IH.
Qed.

Lemma contains_str_iff (s : string) (l : list value) :
  contains_str s l = true <-> VStr s ∈ l.
Proof.
  unfold contains_str. rewrite existsb_exists. split.
  - intros (v & Hin & Hv). destruct v; try discriminate.
    apply String.eqb_eq in Hv as ->. now apply list_elem_of_In.
  - intros Hin. exists (VStr s). split; [now apply list_elem_of_In|].
    cbn. apply String.eqb_refl.
Qed.

(** *** The methods *)

Section Handler.

Context {DB : Type} `{Cursor DB}.

Import DBHandler.

Lemma get_table_fields_run (table_name : string) (w : world DB) (names : list value) (c : DB) :
  query (catalog_query table_name) None (conn w) = (Ok (catalog_rows names), c) ->
  _get_table_fields table_name w =
  (Ok (if contains_str "server_id" names then slice_from 1 names else names),
   World c (store w) (calls w ++ [Execute (catalog_query table_name) None; Fetchall])%list).
Proof.
  unfold query, _get_table_fields, bind, execute, fetchall, lift, ret, append.
  intros Hq. cbn.
  destruct (cursor_execute _ _ _) as [[[]|e] c1]; [|discriminate]. cbn.
  rewrite Hq. cbn. rewrite first_columns. now rewrite <- app_assoc.
Qed.

(** Both branches of [_format_sql_data] are the comprehension over the
    fetched rows. *)
Lemma format_sql_data_uniform (table_name : string) (w : world DB) :
  _format_sql_data table_name w =
  (data <- fetchall ;;
   fields <- _get_table_fields table_name ;;
   lift (comprehension (fun entry => dictify (slice_from 1 entry) fields) data)) w.
Proof.
  unfold _format_sql_data, bind.
  destruct (fetchall w) as [[data|e] w1]; [|reflexivity].
  destruct (_get_table_fields table_name w1) as [[fields|e] w2]; [|reflexivity].
  destruct data as [|first [|second data]]; cbn.
  - reflexivity.
  - unfold lift, ret. now destruct (dictify (slice_from 1 first) fields).
  - reflexivity.
Qed.

(** The calls [_format_sql_data] makes: it fetches, asks the catalog for the
    columns and fetches again, unless one of the calls raises. *)
Lemma format_sql_data_calls (table_name : string) (w : world DB) :
  exists rest,
    calls (snd (_format_sql_data table_name w)) = (calls w ++ rest)%list /\
    rest `prefix_of` [Fetchall; Execute (catalog_query table_name) None; Fetchall].
Proof.
  rewrite format_sql_data_uniform.
  unfold _get_table_fields, bind, execute, fetchall, lift, ret, append.
  destruct (cursor_fetchall (conn w)) as [[data|e] c1]; cbn.
  2:{ exists [Fetchall]. split; [reflexivity|]. now exists [Execute (catalog_query table_name) None; Fetchall]. }
  destruct (cursor_execute _ None c1) as [[[]|e] c2]; cbn.
  2:{ exists [Fetchall; Execute (catalog_query table_name) None].
      split; [now rewrite <- app_assoc|]. now exists [Fetchall]. }
  destruct (cursor_fetchall c2) as [[rows|e] c3]; cbn.
  2:{ exists [Fetchall; Execute (catalog_query table_name) None; Fetchall].
      split; [now rewrite <- !app_assoc|reflexivity]. }
  exists [Fetchall; Execute (catalog_query table_name) None; Fetchall].
  split; [|reflexivity].
  destruct (comprehension (fun field => getitem field 0) rows) as [fields|e]; cbn;
    now rewrite <- !app_assoc.
Qed.

(** One dictionary for each fetched row: the list [_format_sql_data] returns
    is empty exactly when no row was fetched. *)
Lemma format_sql_data_length (table_name : string) (w : world DB)
    (data : list row) (c : DB) (ds : list pydict) :
  cursor_fetchall (conn w) = (Ok data, c) ->
  fst (_format_sql_data table_name w) = Ok ds ->
  length ds = length data.
Proof.
  intros Hfetch. rewrite format_sql_data_uniform.
  unfold bind. unfold fetchall at 1. rewrite Hfetch.
  destruct (_get_table_fields _ _) as [[fields|e] w2]; [|discriminate].
  unfold lift. cbn [fst]. apply comprehension_length.
Qed.


(** C7. The first call [_search] makes on the cursor executes
    [SELECT * FROM <table>], the condition and the extra query as they are
    given, with the searched value as the only variable: the condition is
    [WHERE <field> = %s] when case-sensitive and
    [WHERE LOWER(<field>) = LOWER(%s)] otherwise. The calls that follow are
    the two fetches and the catalog query, which binds nothing. *)
Theorem search_statement (table_name field_name : string) (value : value)
    (case_sensitive : bool) (extra_query : string) (all_results : bool) (w : world DB) :
  exists rest,
    calls (snd (_search table_name field_name value case_sensitive extra_query all_results w))
    = (calls w ++
       Execute (nl ++ indent ++ "SELECT * FROM " ++ table_name ++
                nl ++ indent ++
                (if case_sensitive
                 then "WHERE " ++ field_name ++ " = %s"
                 else "WHERE LOWER(" ++ field_name ++ ") = LOWER(%s)") ++
                " " ++ extra_query ++
                nl ++ indent)
               (Some [value]) :: rest)%list /\
    rest `prefix_of` [Fetchall; Execute (catalog_query table_name) None; Fetchall].
Proof.
  unfold _search, bind.
  destruct (execute _ _ w) as [[[]|e] w1] eqn:Hex;
    unfold execute, append in Hex; destruct (cursor_execute _ _ _) as [r c1];
    injection Hex as -> <-.
  2:{ exists []. split; [reflexivity|]. apply prefix_nil. }
  destruct (format_sql_data_calls table_name
              (World c1 (store w)
                 (calls w ++ [Execute (search_query table_name
                    (get_check field_name case_sensitive) extra_query) (Some [value])])%list))
    as (rest & Hcalls & Hrest).
  exists rest. split; [|assumption].
  destruct (_format_sql_data _ _) as [[[|first results]|e] w2]; cbn in *;
    try destruct all_results; cbn; rewrite Hcalls; cbn; rewrite <- app_assoc;
    reflexivity.
Qed.

(** C10. The branch of [_format_sql_data] for one row and the branch for
    several do the same: whatever is fetched, the method is the fetch, the
    lookup of the fields and the comprehension that sends each row to
    [dictify] of the row without its first value and the fields, raising
    where the comprehension raises. *)
Theorem format_branches_agree (table_name : string) (w : world DB) :
  _format_sql_data table_name w =
  bind fetchall (fun data =>
    bind (_get_table_fields table_name) (fun fields =>
      lift (comprehension (fun entry => dictify (slice_from 1 entry) fields) data))) w.
Proof. apply format_sql_data_uniform. Qed.

(** What [_update_many] does with a dictionary keyed by field names. *)
Lemma update_many_run (table_name check_field : string) (check_value : value)
    (updates : pydict) (names : list string) (case_sensitive : bool)
    (extra_query : string) (w : world DB) :
  wf_dict updates ->
  dict_keys updates = map KStr names ->
  _update_many table_name check_field check_value updates case_sensitive extra_query w =
  bind
    (execute
       (update_query table_name (join_strings " AND " names)
          (get_check check_field case_sensitive) extra_query)
       (Some (dict_values updates ++ [check_value])%list))
    (fun _ => commit) w.
Proof.
  intros Hwf Hkeys. unfold _update_many.
  pose proof (collect_dict (fun x => x) updates Hwf) as Hloop.
  rewrite map_id in Hloop.
  unfold bind at 1. unfold lift at 1. rewrite Hloop.
  rewrite Hkeys, of_key_KStr.
  unfold bind at 1. unfold lift at 1. rewrite str_join_strings.
  reflexivity.
Qed.

(** C4. For a dictionary [updates] of field names, [_update_many] executes
    one statement and commits if that succeeds. The text of the statement is
    [UPDATE <table>], then the field names joined with [" AND "], then the
    condition and the extra query: there is no [SET] and no assignment in
    it. The variables are the values of [updates] in order, then the value
    to check. *)
Theorem update_many_statement (table_name check_field : string) (check_value : value)
    (updates : pydict) (names : list string) (case_sensitive : bool)
    (extra_query : string) (w : world DB) :
  wf_dict updates ->
  dict_keys updates = map KStr names ->
  _update_many table_name check_field check_value updates case_sensitive extra_query w =
  bind
    (execute
       (nl ++ indent ++ "UPDATE " ++ table_name ++
        nl ++ indent ++ join_strings " AND " names ++
        nl ++ indent ++ get_check check_field case_sensitive ++ " " ++ extra_query ++
        nl ++ indent)
       (Some (dict_values updates ++ [check_value])%list))
    (fun _ => commit) w.
Proof. apply update_many_run. Qed.

(** C5. [_update] is [_update_many] on the dictionary with the one entry
    [update_field: update_value], with the same case sensitivity and extra
    query: the same result and the same world. Both execute the statement
    that has the field name alone between [UPDATE <table>] and the condition,
    with the new value and the value to check as variables, and commit. *)
Theorem update_is_update_many (table_name check_field : string) (check_value : value)
    (update_field : string) (update_value : value) (case_sensitive : bool)
    (extra_query : string) (w : world DB) :
  _update table_name check_field check_value update_field update_value
    case_sensitive extra_query w
  = _update_many table_name check_field check_value [(KStr update_field, update_value)]
      case_sensitive extra_query w
  /\
  _update table_name check_field check_value update_field update_value
    case_sensitive extra_query w
  = bind
      (execute
         (update_query table_name update_field (get_check check_field case_sensitive)
            extra_query)
         (Some [update_value; check_value]))
      (fun _ => commit) w.
Proof.
  split; [reflexivity|]. unfold _update.
  apply (update_many_run _ _ _ [(KStr update_field, update_value)] [update_field]).
  - unfold wf_dict. cbn. apply NoDup_singleton.
  - reflexivity.
Qed.

(** C8, as the code has it. [_format_sql_data] asks the catalog for the
    fields before it looks whether a row was fetched. When the statement of
    [_search] runs and matches no row, and the catalog query that follows
    answers, [_search] returns the empty list whether one result or all are
    asked for, and so does [_format_sql_data] on the connection the
    statement leaves: both return, neither raises. *)
Theorem no_rows_is_not_an_error (table_name field_name : string) (value : value)
    (case_sensitive : bool) (extra_query : string) (all_results : bool)
    (w : world DB) (names : list Py.value) (c0 c1 c2 : DB) :
  cursor_execute
    (search_query table_name (get_check field_name case_sensitive) extra_query)
    (Some [value]) (conn w) = (Ok tt, c0) ->
  cursor_fetchall c0 = (Ok [], c1) ->
  query (catalog_query table_name) None c1 = (Ok (catalog_rows names), c2) ->
  fst (_search table_name field_name value case_sensitive extra_query all_results w)
  = Ok (VList []) /\
  forall s l, fst (_format_sql_data table_name (World c0 s l)) = Ok [].
Proof.
  intros Hexec Hfetch Hcat.
  assert (Hfmt : forall s l, exists w', _format_sql_data table_name (World c0 s l) = (Ok [], w')).
  { intros s l. unfold _format_sql_data, bind. unfold fetchall at 1. cbn.
    rewrite Hfetch.
    erewrite get_table_fields_run by (cbn; exact Hcat). cbn. now eexists. }
  split.
  - unfold _search, bind. unfold execute at 1. rewrite Hexec.
    destruct (Hfmt (store w)
                (append (calls w)
                   (Execute (search_query table_name
                      (get_check field_name case_sensitive) extra_query) (Some [value]))))
      as [w' ->].
    reflexivity.
  - intros s l. now destruct (Hfmt s l) as [w' ->].
Qed.

(** C2. Take a table whose columns are [identifier :: others], all
    different, and fetched rows that have one value for each column. Then
    every dictionary that [_format_sql_data] returns pairs the columns after
    the first with the values after the first, and has no key [identifier].
    When ['server_id'] is one of the columns it does return them. *)
Theorem format_strips_identifier (table_name : string) (w : world DB)
    (rows : list row) (identifier : string) (others : list string) (c1 c2 : DB) :
  cursor_fetchall (conn w) = (Ok rows, c1) ->
  query (catalog_query table_name) None c1
  = (Ok (catalog_rows (map VStr (identifier :: others))), c2) ->
  NoDup (identifier :: others) ->
  Forall (fun r : row => length r = length (identifier :: others)) rows ->
  (forall ds, fst (_format_sql_data table_name w) = Ok ds ->
     ds = map (fun r => combine (map KStr others) (slice_from 1 r)) rows /\
     Forall (fun d => dict_get d (KStr identifier) = None) ds) /\
  ("server_id" ∈ identifier :: others ->
   fst (_format_sql_data table_name w)
   = Ok (map (fun r => combine (map KStr others) (slice_from 1 r)) rows)).
Proof.
  intros Hfetch Hcat Hnd Hwidth.
  apply NoDup_cons in Hnd as [Hid Hnd].
  assert (Hrun : fst (_format_sql_data table_name w)
                 = comprehension
                     (fun entry => dictify (slice_from 1 entry)
                        (if contains_str "server_id" (map VStr (identifier :: others))
                         then slice_from 1 (map VStr (identifier :: others))
                         else map VStr (identifier :: others))) rows).
  { rewrite format_sql_data_uniform. unfold bind. unfold fetchall at 1. rewrite Hfetch.
    erewrite get_table_fields_run by (cbn; exact Hcat). reflexivity. }
  rewrite Hrun. clear Hrun.
  destruct (contains_str "server_id" (map VStr (identifier :: others))) eqn:Hsid.
  - assert (Hok : comprehension
                    (fun entry => dictify (slice_from 1 entry)
                                    (slice_from 1 (map VStr (identifier :: others)))) rows
                  = Ok (map (fun r => combine (map KStr others) (slice_from 1 r)) rows)).
    { apply comprehension_ok. intros r Hr. cbn.
      apply dictify_names; [assumption|].
      rewrite Forall_forall in Hwidth. specialize (Hwidth r Hr).
      rewrite length_skipn. cbn in Hwidth. lia. }
    rewrite Hok. split; [|reflexivity].
    intros ds [= <-]. split; [reflexivity|].
    apply Forall_forall. intros d Hd.
    apply list_elem_of_In, in_map_iff in Hd as (r & <- & _).
    apply dict_get_absent. intros Hin. apply Hid. now apply elem_of_KStr.
  - split.
    + destruct rows as [|r rows].
      * cbn. intros ds [= <-]. split; [reflexivity|constructor].
      * destruct (comprehension_raise
                    (fun entry => dictify (slice_from 1 entry)
                                    (map VStr (identifier :: others))) (r :: rows))
          as [e He]; [discriminate| |].
        { intros x Hx. apply dictify_short.
          rewrite Forall_forall in Hwidth. specialize (Hwidth x Hx).
          unfold slice_from. rewrite length_skipn, length_map. cbn in *. lia. }
        rewrite He. discriminate.
    + intros Hin. exfalso.
      assert (contains_str "server_id" (map VStr (identifier :: others)) = true);
        [|congruence].
      apply contains_str_iff. apply list_elem_of_In, in_map.
      now apply list_elem_of_In.
Qed.

(** C3, as the code has it. When the catalog lists the columns [names] of
    the table, [_get_table_fields] returns them without the first one if
    ['server_id'] is among them, at any position, and returns them as they
    are if it is not. *)
Theorem table_fields_rule (table_name : string) (w : world DB)
    (names : list value) (c : DB) :
  query (catalog_query table_name) None (conn w) = (Ok (catalog_rows names), c) ->
  (VStr "server_id" ∈ names ->
   fst (_get_table_fields table_name w) = Ok (slice_from 1 names)) /\
  (VStr "server_id" ∉ names ->
   fst (_get_table_fields table_name w) = Ok names).
Proof.
  intros Hcat. rewrite (get_table_fields_run _ _ _ _ Hcat). cbn [fst].
  split; intros Hin.
  - apply contains_str_iff in Hin. now rewrite Hin.
  - destruct (contains_str "server_id" names) eqn:Hsid; [|reflexivity].
    apply contains_str_iff in Hsid. contradiction.
Qed.

End Handler.

Section Add.

Context {DB : Type} `{Cursor DB}.
Variable py_str : value -> string.

Import DBHandler.

Lemma placeholders {A : Type} (values : list A) (names : list string) :
  length values = length names ->
  map (fun _ => VStr "%s") values = map VStr (map (fun _ => "%s") names).
Proof.
  revert names. induction values as [|v values IH]; intros [|n names] Hlen;
    cbn in *; try discriminate; [reflexivity|].
  f_equal. apply IH. congruence.
Qed.

Lemma add_store (table_name : string) (guild_id : Z) (given_values : loc)
    (d : pydict) (w : world DB) :
  store w !! given_values = Some d ->
  store (snd (_add py_str table_name guild_id given_values w))
  = <[given_values := dict_set d (KStr "server_id") (VInt guild_id)]> (store w).
Proof.
  intros Hl. unfold _add, setitem, deref, bind, lift, execute, commit, ret.
  rewrite Hl. cbn. rewrite lookup_insert_eq.
  repeat (match goal with
          | |- context [for_each ?a ?b ?c] => destruct (for_each a b c) as [[? ?]|?]
          | |- context [parenthesise ?a] => destruct (parenthesise a)
          | |- context [cursor_execute ?a ?b ?c] =>
              destruct (cursor_execute a b c) as [[[]|?] ?]
          | |- context [conn_commit ?c] => destruct (conn_commit c) as [[[]|?] ?]
          end; cbn); reflexivity.
Qed.

Lemma bound_value_replace (v : value) :
  (if is_dict v then VStr (str_replace "'" dquote (py_str v)) else v)
  = bound_value py_str v.
Proof.
  destruct v; cbn [is_dict bound_value]; try reflexivity.
  now rewrite replace_quote_map.
Qed.

(** C6. [_add] on a dictionary of field names executes one [INSERT] whose
    variables are the values of the dictionary, ['server_id'] included, in
    order, each as [bound_value] has it: a value that is a dictionary is
    bound as the text of its representation in which each single quote is a
    double quote and every other character is what it was, and a value that
    is not a dictionary is bound as it is. *)
Theorem add_binds_values (table_name : string) (guild_id : Z) (given_values : loc)
    (d : pydict) (names : list string) (w : world DB) :
  store w !! given_values = Some d ->
  wf_dict d ->
  dict_keys (dict_set d (KStr "server_id") (VInt guild_id)) = map KStr names ->
  _add py_str table_name guild_id given_values w =
  bind
    (execute
       ("INSERT INTO " ++ table_name ++ " " ++
        ("(" ++ join_strings ", " names ++ ")") ++
        " VALUES " ++
        ("(" ++ join_strings ", " (map (fun _ => "%s") names) ++ ")"))
       (Some (map (bound_value py_str)
                (dict_values (dict_set d (KStr "server_id") (VInt guild_id))))))
    (fun _ => commit)
    (World (conn w)
       (<[given_values := dict_set d (KStr "server_id") (VInt guild_id)]> (store w))
       (calls w)).
Proof.
  intros Hl Hwf Hkeys.
  set (d' := dict_set d (KStr "server_id") (VInt guild_id)) in *.
  set (w1 := World (conn w) (<[given_values := d']> (store w)) (calls w)).
  assert (Hset : setitem given_values (KStr "server_id") (VInt guild_id) w = (Ok tt, w1)).
  { unfold setitem, bind, deref. now rewrite Hl. }
  assert (Hderef : deref given_values w1 = (Ok d', w1)).
  { unfold deref, w1. cbn. now rewrite lookup_insert_eq. }
  assert (Hwf' : wf_dict d') by now apply wf_dict_set.
  unfold _add. unfold bind at 1. rewrite Hset.
  unfold bind at 1. rewrite Hderef.
  unfold bind at 1. unfold lift at 1.
  rewrite (for_each_ext (dict_keys d') _
             (fun '(fs, vs) key =>
                x <~ dict_getitem d' key ;;
                Ok (append fs (of_key key), append vs (bound_value py_str x)))).
  2:{ intros [fs vs] key. unfold result_bind.
      destruct (dict_getitem d' key) as [x|e]; [|reflexivity].
      rewrite <- bound_value_replace. now destruct (is_dict x). }
  rewrite (collect_dict (bound_value py_str) d' Hwf').
  rewrite Hkeys, of_key_KStr.
  unfold bind at 1. unfold lift at 1. unfold parenthesise at 1.
  rewrite str_join_strings. cbn [result_bind].
  unfold bind at 1. unfold lift at 1. unfold parenthesise at 1.
  rewrite (placeholders _ names).
  2:{ rewrite length_map. unfold dict_values. rewrite length_map.
      rewrite <- (length_map KStr names), <- Hkeys. unfold dict_keys.
      now rewrite length_map. }
  rewrite str_join_strings. reflexivity.
Qed.

(** C9. [_add] writes into the dictionary it is given, not into a copy:
    whatever the call returns or raises, the object at [given_values] is
    afterwards the caller's dictionary with ['server_id'] set to the guild
    id, every other key as it was, and no other object is touched. *)
Theorem add_mutates_given_values (table_name : string) (guild_id : Z)
    (given_values : loc) (d : pydict) (w : world DB) :
  store w !! given_values = Some d ->
  let w' := snd (_add py_str table_name guild_id given_values w) in
  store w' !! given_values = Some (dict_set d (KStr "server_id") (VInt guild_id)) /\
  dict_get (dict_set d (KStr "server_id") (VInt guild_id)) (KStr "server_id")
  = Some (VInt guild_id) /\
  (forall k, k <> KStr "server_id" ->
     dict_get (dict_set d (KStr "server_id") (VInt guild_id)) k = dict_get d k) /\
  (forall l, l <> given_values -> store w' !! l = store w !! l).
Proof.
  intros Hl w'. unfold w'. rewrite (add_store _ _ _ d w Hl).
  split; [apply lookup_insert_eq|].
  split; [apply dict_get_set_eq|].
  split.
  - intros k Hk. apply dict_get_set_ne. congruence.
  - intros l Hne. now apply lookup_insert_ne.
Qed.

End Add.

(** ** The theorems at the sample tables *)

Import DBHandler.

Lemma update_many_statement_witness :
  _update_many "cache" "team_name" (VStr "alpha") cache_updates true
    "AND server_id = '1001'" (fresh accepting)
  = bind
      (execute
         (nl ++ indent ++ "UPDATE " ++ "cache" ++
          nl ++ indent ++ join_strings " AND " ["players"; "last_saved"] ++
          nl ++ indent ++ get_check "team_name" true ++ " " ++ "AND server_id = '1001'" ++
          nl ++ indent)
         (Some (dict_values cache_updates ++ [VStr "alpha"])%list))
      (fun _ => commit) (fresh accepting).
Proof.
  apply (update_many_statement "cache" "team_name" (VStr "alpha") cache_updates
           ["players"; "last_saved"] true "AND server_id = '1001'" (fresh accepting)).
  - unfold wf_dict. cbn. by apply (bool_decide_unpack _).
  - reflexivity.
Defined.

Lemma no_rows_is_not_an_error_witness :
  fst (_search "teams" "team_name" (VStr "gamma") false "AND server_id = '1001'" false
         (fresh (answering [] teams_columns)))
  = Ok (VList []) /\
  forall s l,
    fst (_format_sql_data "teams" (World (fetched [] teams_columns) s l)) = Ok [].
Proof.
  apply (no_rows_is_not_an_error "teams" "team_name" (VStr "gamma") false
           "AND server_id = '1001'" false (fresh (answering [] teams_columns))
           (map VStr teams_columns)
           (fetched [] teams_columns) (fetched [] teams_columns) (Script [] (Some [])));
    reflexivity.
Defined.

(** C8, as the claim words it, fails when the catalog query fails: the
    search matches no row, and still [_search] and [_format_sql_data] raise
    the error of the driver instead of returning the empty list, because the
    fields are looked up before the fetched rows are tested. *)
Lemma no_rows_counterexample :
  query (search_query "teams" (get_check "team_name" true) "")
    (Some [VStr "gamma"]) (conn (fresh catalog_down))
  = (Ok [], Script [Raise (DriverError "catalog down")] (Some [])) /\
  fst (_search "teams" "team_name" (VStr "gamma") true "" false (fresh catalog_down))
  = Raise (DriverError "catalog down") /\
  fst (_search "teams" "team_name" (VStr "gamma") true "" true (fresh catalog_down))
  = Raise (DriverError "catalog down") /\
  cursor_fetchall (Script [Raise (DriverError "catalog down")] (Some []))
  = (Ok [], Script [Raise (DriverError "catalog down")] (Some [])) /\
  fst (_format_sql_data "teams"
         (fresh (Script [Raise (DriverError "catalog down")] (Some []))))
  = Raise (DriverError "catalog down") /\
  ~ (forall (rows_matched : list row) (c : script),
       query (search_query "teams" (get_check "team_name" true) "")
         (Some [VStr "gamma"]) (conn (fresh catalog_down)) = (Ok rows_matched, c) ->
       rows_matched = [] ->
       fst (_search "teams" "team_name" (VStr "gamma") true "" false (fresh catalog_down))
       = Ok (VList [])).
Proof.
  repeat split; try reflexivity.
  intros Hclaim.
  specialize (Hclaim [] (Script [Raise (DriverError "catalog down")] (Some []))
                eq_refl eq_refl).
  vm_compute in Hclaim. discriminate.
Qed.

Lemma format_strips_identifier_witness :
  (forall ds,
     fst (_format_sql_data "teams" (fresh (fetched teams_rows teams_columns))) = Ok ds ->
     ds = map (fun r => combine (map KStr ["server_id"; "team_name"]) (slice_from 1 r))
            teams_rows /\
     Forall (fun d => dict_get d (KStr "id") = None) ds) /\
  ("server_id" ∈ teams_columns ->
   fst (_format_sql_data "teams" (fresh (fetched teams_rows teams_columns)))
   = Ok (map (fun r => combine (map KStr ["server_id"; "team_name"]) (slice_from 1 r))
           teams_rows)).
Proof.
  apply (format_strips_identifier "teams" (fresh (fetched teams_rows teams_columns))
           teams_rows "id" ["server_id"; "team_name"]
           (Script [Ok (Some (catalog_rows (map VStr teams_columns)))] (Some []))
           (Script [] (Some []))).
  - reflexivity.
  - reflexivity.
  - by apply (bool_decide_unpack _).
  - repeat constructor.
Defined.

Lemma table_fields_rule_witness :
  (VStr "server_id" ∈ map VStr teams_columns ->
   fst (_get_table_fields "teams" (fresh (fetched [] teams_columns)))
   = Ok (slice_from 1 (map VStr teams_columns))) /\
  (VStr "server_id" ∉ map VStr teams_columns ->
   fst (_get_table_fields "teams" (fresh (fetched [] teams_columns)))
   = Ok (map VStr teams_columns)).
Proof.
  apply (table_fields_rule "teams" (fresh (fetched [] teams_columns))
           (map VStr teams_columns) (Script [] (Some []))).
  reflexivity.
Defined.

(** C3, as the specification words it, fails whatever field is taken for
    the identifier. The tables [teams] and [plain] both start with the
    column [id]; the handler drops it from the first, which has a column
    ['server_id'], and keeps it in the second, which has none. A rule that
    looks at the first entry would treat the two alike. *)
Lemma table_fields_counterexample :
  fst (_get_table_fields "teams" (fresh (fetched [] ["id"; "server_id"; "team_name"])))
  = Ok [VStr "server_id"; VStr "team_name"] /\
  fst (_get_table_fields "plain" (fresh (fetched [] ["id"; "name"])))
  = Ok [VStr "id"; VStr "name"] /\
  ~ (exists is_identifier : value -> bool,
       forall (table_name : string) (columns : list string),
         fst (_get_table_fields table_name (fresh (fetched [] columns)))
         = Ok (first_entry_rule is_identifier (map VStr columns))).
Proof.
  split; [reflexivity|]. split; [reflexivity|].
  intros [is_identifier Hrule].
  pose proof (Hrule "teams" ["id"; "server_id"; "team_name"]) as Hteams.
  pose proof (Hrule "plain" ["id"; "name"]) as Hplain.
  vm_compute in Hteams, Hplain.
  destruct (is_identifier (VStr "id")); discriminate.
Qed.

Lemma add_binds_values_witness :
  _add repr "player_data" 1001 1%positive player_world =
  bind
    (execute
       ("INSERT INTO " ++ "player_data" ++ " " ++
        ("(" ++ join_strings ", " ["name"; "date"; "availability"; "server_id"] ++ ")") ++
        " VALUES " ++
        ("(" ++ join_strings ", "
                  (map (fun _ => "%s") ["name"; "date"; "availability"; "server_id"]) ++ ")"))
       (Some (map (bound_value repr)
                (dict_values (dict_set player_values (KStr "server_id") (VInt 1001))))))
    (fun _ => commit)
    (World (conn player_world)
       (<[1%positive := dict_set player_values (KStr "server_id") (VInt 1001)]>
          (store player_world))
       (calls player_world)).
Proof.
  apply (add_binds_values repr "player_data" 1001 1%positive player_values
           ["name"; "date"; "availability"; "server_id"] player_world).
  - reflexivity.
  - unfold wf_dict. cbn. by apply (bool_decide_unpack _).
  - reflexivity.
Defined.

Lemma add_mutates_given_values_witness :
  let w' := snd (_add repr "player_data" 1001 1%positive player_world) in
  store w' !! 1%positive = Some (dict_set player_values (KStr "server_id") (VInt 1001)) /\
  dict_get (dict_set player_values (KStr "server_id") (VInt 1001)) (KStr "server_id")
  = Some (VInt 1001) /\
  (forall k, k <> KStr "server_id" ->
     dict_get (dict_set player_values (KStr "server_id") (VInt 1001)) k
     = dict_get player_values k) /\
  (forall l, l <> 1%positive -> store w' !! l = store player_world !! l).
Proof.
  apply (add_mutates_given_values repr "player_data" 1001 1%positive player_values
           player_world).
  reflexivity.
Defined.

(** ** Worked runs *)

(** Two teams of guild 1001: all of them, and the first. *)
Example search_all_teams :
  fst (_search "teams" "team_name" (VStr "Alpha") false "AND server_id = '1001'" true
         (fresh (answering teams_rows teams_columns)))
  = Ok (VList [VDict [(KStr "server_id", VInt 1001); (KStr "team_name", VStr "alpha")];
               VDict [(KStr "server_id", VInt 1001); (KStr "team_name", VStr "beta")]]).
Proof. reflexivity. Qed.

Example search_one_team :
  fst (_search "teams" "team_name" (VStr "Alpha") false "AND server_id = '1001'" false
         (fresh (answering teams_rows teams_columns)))
  = Ok (VDict [(KStr "server_id", VInt 1001); (KStr "team_name", VStr "alpha")]).
Proof. reflexivity. Qed.

Example search_calls :
  calls (snd (_search "teams" "team_name" (VStr "Alpha") false "AND server_id = '1001'"
                false (fresh (answering teams_rows teams_columns))))
  = [Execute
       (nl ++ indent ++ "SELECT * FROM teams" ++
        nl ++ indent ++ "WHERE LOWER(team_name) = LOWER(%s) AND server_id = '1001'" ++
        nl ++ indent)
       (Some [VStr "Alpha"]);
     Fetchall;
     Execute
       (nl ++ indent ++ "SELECT column_name FROM information_schema.columns" ++
        nl ++ indent ++ "WHERE table_name='teams'")
       None;
     Fetchall].
Proof. reflexivity. Qed.

(** A table without ['server_id'] keeps all its field names while its rows
    lose their first value: [dictify] runs out of values. *)
Example format_without_server_id :
  fst (_format_sql_data "plain" (fresh (fetched [[VInt 1; VStr "a"]] ["id"; "name"])))
  = Raise IndexError.
Proof. reflexivity. Qed.

Example update_many_calls :
  calls (snd (_update_many "cache" "team_name" (VStr "alpha") cache_updates true
                "AND server_id = '1001'" (fresh accepting)))
  = [Execute
       (nl ++ indent ++ "UPDATE cache" ++
        nl ++ indent ++ "players AND last_saved" ++
        nl ++ indent ++ "WHERE team_name = %s AND server_id = '1001'" ++
        nl ++ indent)
       (Some [VStr "{}"; VStr "2019-07-01T10:00:00"; VStr "alpha"]);
     Commit].
Proof. reflexivity. Qed.

(** A key that is not a string stops [_update_many] at the join, before
    anything is executed. *)
Example update_many_int_key :
  _update_many "cache" "team_name" (VStr "alpha") [(KInt 3, VNone)] true "" (fresh accepting)
  = (Raise TypeError, fresh accepting).
Proof. reflexivity. Qed.

Example add_player_data_calls :
  calls (snd (_add repr "player_data" 1001 1%positive player_world))
  = [Execute
       "INSERT INTO player_data (name, date, availability, server_id) VALUES (%s, %s, %s, %s)"
       (Some [VStr "O'Neil"; VStr "2019-07-01";
              VStr ("{" ++ dquote ++ "mon" ++ dquote ++ ": " ++ dquote ++ "yes" ++ dquote ++
                    ", " ++ dquote ++ "tue" ++ dquote ++ ": 0}");
              VInt 1001]);
     Commit].
Proof. reflexivity. Qed.

(** An apostrophe inside a string of the dictionary is swapped like the
    quotes around it, and the name comes out cut in two. *)
Example bound_value_apostrophe :
  bound_value repr (VDict [(KStr "n", VStr "O'Neil")])
  = VStr ("{" ++ dquote ++ "n" ++ dquote ++ ": " ++
          dquote ++ "O" ++ dquote ++ "Neil" ++ dquote ++ "}").
Proof. reflexivity. Qed.

(** ** Further properties of [dictify] *)

Lemma dict_get_combine (ks : list key) (vs : list value) (i : nat) (k : key) :
  NoDup ks -> nth_error ks i = Some k -> i < length vs ->
  dict_get (combine ks vs) k = nth_error vs i.
Proof.
  revert vs i. induction ks as [|k0 ks IH]; intros vs i Hnd Hk Hi.
  - destruct i; discriminate.
  - apply NoDup_cons in Hnd as [Hk0 Hnd].
    destruct vs as [|v vs]; [cbn in Hi; lia|].
    destruct i as [|i]; cbn in *.
    + injection Hk as ->. now destruct (decide (k = k)).
    + destruct (decide (k0 = k)) as [->|_].
      * exfalso. apply Hk0. apply list_elem_of_In. eapply nth_error_In; eassumption.
      * apply IH; [assumption|assumption|lia].
Qed.

Lemma dict_keys_combine (ks : list key) (vs : list value) :
  length ks <= length vs -> dict_keys (combine ks vs) = ks.
Proof.
  revert vs. induction ks as [|k ks IH]; intros [|v vs] Hlen; cbn in *;
    try reflexivity; try lia.
  f_equal. apply IH. lia.
Qed.

(** What is stored under a field name is read back: with field names that
    are all different and a value for each, [dictify] returns, its keys are
    the field names in order, and the [i]-th field name gives the [i]-th
    value; values beyond the fields are left out. *)
Theorem dictify_lookup (data : list value) (names : list string) :
  NoDup names -> length names <= length data ->
  exists d,
    dictify data (map VStr names) = Ok d /\
    dict_keys d = map KStr names /\
    length d = length names /\
    forall i n, nth_error names i = Some n -> dict_get d (KStr n) = nth_error data i.
Proof.
  intros Hnd Hlen. exists (combine (map KStr names) data).
  split; [now apply dictify_names|].
  split; [apply dict_keys_combine; now rewrite length_map|].
  split; [rewrite length_combine, length_map; lia|].
  intros i n Hn. apply dict_get_combine.
  - now apply NoDup_KStr.
  - now rewrite nth_error_map, Hn.
  - assert (i < length names) by (apply nth_error_Some; congruence). lia.
Qed.

Lemma dictify_loop_index (data fields : list value) (ks : list key) (i : nat) (acc : pydict) :
  comprehension to_key fields = Ok ks ->
  i <= length data -> length data < i + length fields ->
  for_each (combine (seq i (length fields)) fields)
    (fun formatted_data '(i, key) =>
       x <~ getitem data i ;;
       k <~ to_key key ;;
       Ok (dict_set formatted_data k x))
    acc
  = Raise IndexError.
Proof.
  revert ks i acc. induction fields as [|f fields IH]; intros ks i acc Hks Hi Hlen;
    cbn in *; [lia|].
  unfold getitem. destruct (nth_error data i) as [x|] eqn:Hx; cbn; [|reflexivity].
  destruct (to_key f) as [k|e]; cbn in *; [|discriminate].
  destruct (comprehension to_key fields) as [ks'|e] eqn:Hks'; cbn in *; [|discriminate].
  apply (IH ks'); [reflexivity| |lia].
  assert (i < length data) by (apply nth_error_Some; congruence). lia.
Qed.

Lemma dictify_raises_index (data fields : list value) (ks : list key) :
  comprehension to_key fields = Ok ks ->
  length data < length fields ->
  dictify data fields = Raise IndexError.
Proof.
  intros Hks Hlen. unfold dictify, enumerate.
  apply (dictify_loop_index data fields ks 0 []); [assumption|lia|lia].
Qed.

(** With more fields than values, and fields that can all be keys,
    [dictify] raises [IndexError]: it does not stop at the shorter of the
    two the way a zip does. *)
Theorem dictify_index_error (data fields : list value) (ks : list key) :
  comprehension to_key fields = Ok ks ->
  length data < length fields ->
  dictify data fields = Raise IndexError.
Proof. apply dictify_raises_index. Qed.

Lemma to_key_of_key (v : value) (k : key) : to_key v = Ok k -> of_key k = v.
Proof. destruct v; cbn; intros [= <-]; reflexivity. Qed.

Lemma of_key_to_key (k : key) : to_key (of_key k) = Ok k.
Proof. now destruct k. Qed.

Lemma dict_set_length (d : pydict) (k : key) (v : value) :
  length (dict_set d k v) <= S (length d).
Proof.
  induction d as [|[k' v'] d IH]; cbn; [lia|].
  destruct (decide (k' = k)); cbn; lia.
Qed.

Lemma dict_keys_set_elem (d : pydict) (k k' : key) (v : value) :
  k' ∈ dict_keys (dict_set d k v) -> k' ∈ dict_keys d \/ k' = k.
Proof.
  destruct (decide (k ∈ dict_keys d)) as [Hin|Hin].
  - rewrite dict_keys_set_present by assumption. now left.
  - rewrite dict_keys_set_fresh by assumption. intros Hk'.
    apply elem_of_app in Hk' as [Hk'|Hk']; [now left|].
    apply list_elem_of_singleton in Hk'. now right.
Qed.

Lemma dictify_loop_inv (data fields : list value) (i : nat) (acc d : pydict) :
  wf_dict acc ->
  for_each (combine (seq i (length fields)) fields)
    (fun formatted_data '(i, key) =>
       x <~ getitem data i ;;
       k <~ to_key key ;;
       Ok (dict_set formatted_data k x))
    acc
  = Ok d ->
  wf_dict d /\
  (forall k, k ∈ dict_keys d -> k ∈ dict_keys acc \/ of_key k ∈ fields) /\
  length d <= length acc + length fields.
Proof.
  revert i acc. induction fields as [|f fields IH]; intros i acc Hwf; cbn.
  - intros [= <-]. repeat split; [assumption|now left|lia].
  - destruct (getitem data i) as [x|e]; cbn; [|discriminate].
    destruct (to_key f) as [k0|e] eqn:Hk0; cbn; [|discriminate].
    intros Hloop.
    apply IH in Hloop as (Hwfd & Hkeys & Hlen); [|now apply wf_dict_set].
    repeat split; [assumption| |].
    + intros k Hk. destruct (Hkeys k Hk) as [Hacc|Hf].
      * apply dict_keys_set_elem in Hacc as [Hacc| ->]; [now left|].
        right. apply elem_of_cons. left. now apply to_key_of_key.
      * right. apply elem_of_cons. now right.
    + pose proof (dict_set_length acc k0 x). lia.
Qed.

Lemma dictify_wf (data fields : list value) (d : pydict) :
  dictify data fields = Ok d ->
  wf_dict d /\
  (forall k, k ∈ dict_keys d -> of_key k ∈ fields) /\
  length d <= length fields.
Proof.
  intros Hd. unfold dictify, enumerate in Hd.
  apply dictify_loop_inv in Hd as (Hwf & Hkeys & Hlen); [|apply NoDup_nil_2].
  repeat split; [assumption| |assumption].
  intros k Hk. destruct (Hkeys k Hk) as [Hnil|Hf]; [|assumption].
  now apply elem_of_nil in Hnil.
Qed.

(** Whatever it is given, a dictionary [dictify] returns holds each key
    once, holds only keys that are among the fields, and has at most as
    many entries as there are fields. *)
Theorem dictify_well_formed (data fields : list value) (d : pydict) :
  dictify data fields = Ok d ->
  wf_dict d /\
  (forall k, k ∈ dict_keys d -> of_key k ∈ fields) /\
  length d <= length fields.
Proof. apply dictify_wf. Qed.

Lemma dictify_loop_keeps (data fields : list value) (i : nat) (acc d : pydict) (k : key) :
  (forall f, f ∈ fields -> to_key f <> Ok k) ->
  for_each (combine (seq i (length fields)) fields)
    (fun formatted_data '(i, key) =>
       x <~ getitem data i ;;
       k <~ to_key key ;;
       Ok (dict_set formatted_data k x))
    acc
  = Ok d ->
  dict_get d k = dict_get acc k.
Proof.
  revert i acc. induction fields as [|f fields IH]; intros i acc Hno; cbn.
  - now intros [= <-].
  - destruct (getitem data i) as [x|e]; cbn; [|discriminate].
    destruct (to_key f) as [k0|e] eqn:Hk0; cbn; [|discriminate].
    intros Hloop. rewrite (IH (S i) (dict_set acc k0 x)); [| |assumption].
    + apply dict_get_set_ne. intros ->. apply (Hno f); [|assumption].
      apply elem_of_cons. now left.
    + intros f' Hf'. apply Hno. apply elem_of_cons. now right.
Qed.

Lemma dictify_loop_last (data fields : list value) (s i : nat) (acc d : pydict)
    (f : value) (k : key) :
  for_each (combine (seq s (length fields)) fields)
    (fun formatted_data '(i, key) =>
       x <~ getitem data i ;;
       k <~ to_key key ;;
       Ok (dict_set formatted_data k x))
    acc
  = Ok d ->
  nth_error fields i = Some f -> to_key f = Ok k ->
  (forall j f', i < j -> nth_error fields j = Some f' -> to_key f' <> Ok k) ->
  dict_get d k = nth_error data (s + i).
Proof.
  revert s i acc. induction fields as [|f0 fields IH]; intros s i acc Hloop Hf Hk Hlast.
  - destruct i; discriminate.
  - cbn in Hloop. unfold getitem in Hloop.
    destruct (nth_error data s) as [x|] eqn:Hx; cbn in Hloop; [|discriminate].
    destruct (to_key f0) as [k0|e] eqn:Hk0; cbn in Hloop; [|discriminate].
    destruct i as [|i]; cbn in Hf.
    + injection Hf as ->. rewrite Hk in Hk0. injection Hk0 as <-.
      rewrite Nat.add_0_r, Hx.
      rewrite (dictify_loop_keeps data fields (S s) (dict_set acc k x) d k);
        [apply dict_get_set_eq| |assumption].
      intros f' Hf'. apply list_elem_of_In, In_nth_error in Hf' as [j Hj].
      apply (Hlast (S j)); [lia|assumption].
    + replace (s + S i) with (S s + i) by lia.
      apply (IH (S s) i (dict_set acc k0 x)); try assumption.
      intros j f' Hj Hf'. apply (Hlast (S j)); [lia|assumption].
Qed.

(** When a field occurs more than once, its last occurrence decides: the
    dictionary [dictify] returns gives, under a key, the value at the last
    position where the key stands among the fields. *)
Theorem dictify_last_wins (data fields : list value) (d : pydict) (i : nat)
    (f : value) (k : key) :
  dictify data fields = Ok d ->
  nth_error fields i = Some f -> to_key f = Ok k ->
  (forall j f', i < j -> nth_error fields j = Some f' -> to_key f' <> Ok k) ->
  dict_get d k = nth_error data i.
Proof.
  intros Hd Hf Hk Hlast. unfold dictify, enumerate in Hd.
  exact (dictify_loop_last data fields 0 i [] d f k Hd Hf Hk Hlast).
Qed.

(** ** Further properties of the search *)

Lemma comprehension_forall {A B : Type} (f : A -> result B) (P : B -> Prop)
    (l : list A) (ys : list B) :
  (forall x y, f x = Ok y -> P y) ->
  comprehension f l = Ok ys -> Forall P ys.
Proof.
  intros Hf. revert ys. induction l as [|x l IH]; intros ys; cbn.
  - intros [= <-]. constructor.
  - destruct (f x) as [y|e] eqn:Hy; cbn; [|discriminate].
    destruct (comprehension f l) as [ys'|e]; cbn; [|discriminate].
    intros [= <-]. constructor; [now apply (Hf x)|now apply IH].
Qed.

Lemma comprehension_to_key (names : list string) :
  comprehension to_key (map VStr names) = Ok (map KStr names).
Proof. induction names as [|n names IH]; cbn; [reflexivity|now rewrite IH]. Qed.

Section Search.

Context {DB : Type} `{Cursor DB}.

Import DBHandler.

Lemma format_sql_data_wf (table_name : string) (w : world DB) (ds : list pydict) :
  fst (_format_sql_data table_name w) = Ok ds -> Forall wf_dict ds.
Proof.
  rewrite format_sql_data_uniform. unfold bind.
  destruct (fetchall w) as [[data|e] w1]; [|discriminate].
  destruct (_get_table_fields table_name w1) as [[fields|e] w2]; [|discriminate].
  unfold lift. cbn [fst]. apply comprehension_forall.
  intros entry d Hd. now apply dictify_wf in Hd.
Qed.

Lemma search_shape (table_name field_name : string) (value : value)
    (case_sensitive : bool) (extra_query : string) (all_results : bool) (w : world DB) :
  match fst (_search table_name field_name value case_sensitive extra_query all_results w) with
  | Ok (VList []) => True
  | Ok (VList (first :: others)) =>
      all_results = true /\
      exists ds, first :: others = map VDict ds /\ Forall wf_dict ds
  | Ok (VDict d) => all_results = false /\ wf_dict d
  | Ok _ => False
  | Raise _ => True
  end.
Proof.
  unfold _search, bind.
  destruct (execute _ _ w) as [[[]|e] w1]; [|exact I].
  destruct (_format_sql_data table_name w1) as [[[|first results]|e] w2] eqn:Hfmt;
    [exact I| |exact I].
  assert (Hwf : Forall wf_dict (first :: results)).
  { apply (format_sql_data_wf table_name w1). now rewrite Hfmt. }
  cbn [truthy]. destruct all_results; cbn.
  - split; [reflexivity|]. now exists (first :: results).
  - split; [reflexivity|]. now inversion Hwf.
Qed.

(** What [_search] can return. Asked for all results it returns a list of
    dictionaries, possibly empty. Asked for one it returns a dictionary or
    the empty list, never a list with something in it. Every dictionary it
    returns holds each key once. *)
Theorem search_result_shape (table_name field_name : string) (value : value)
    (case_sensitive : bool) (extra_query : string) (all_results : bool) (w : world DB) :
  match fst (_search table_name field_name value case_sensitive extra_query all_results w) with
  | Ok (VList []) => True
  | Ok (VList (first :: others)) =>
      all_results = true /\
      exists ds, first :: others = map VDict ds /\ Forall wf_dict ds
  | Ok (VDict d) => all_results = false /\ wf_dict d
  | Ok _ => False
  | Raise _ => True
  end.
Proof. apply search_shape. Qed.

(** The rows of a table that has a ['server_id'] column, as
    [_format_sql_data] returns them. *)
Lemma format_sql_data_rows (table_name : string) (w : world DB) (rows : list row)
    (identifier : string) (others : list string) (c1 c2 : DB) :
  cursor_fetchall (conn w) = (Ok rows, c1) ->
  query (catalog_query table_name) None c1
  = (Ok (catalog_rows (map VStr (identifier :: others))), c2) ->
  NoDup (identifier :: others) ->
  "server_id" ∈ identifier :: others ->
  Forall (fun r : row => length r = length (identifier :: others)) rows ->
  _format_sql_data table_name w =
  (Ok (map (fun r => combine (map KStr others) (slice_from 1 r)) rows),
   World c2 (store w)
     (calls w ++ [Fetchall; Execute (catalog_query table_name) None; Fetchall])%list).
Proof.
  intros Hfetch Hcat Hnd Hsid Hwidth.
  apply NoDup_cons in Hnd as [Hid Hnd].
  rewrite format_sql_data_uniform. unfold bind. unfold fetchall at 1. rewrite Hfetch.
  erewrite get_table_fields_run by (cbn; exact Hcat).
  assert (Hc : contains_str "server_id" (map VStr (identifier :: others)) = true).
  { apply contains_str_iff. apply list_elem_of_In, in_map. now apply list_elem_of_In. }
  rewrite Hc. unfold lift. cbn. f_equal.
  - apply comprehension_ok. intros r Hr. apply dictify_names; [assumption|].
    rewrite Forall_forall in Hwidth. specialize (Hwidth r Hr).
    rewrite length_skipn. cbn in Hwidth. lia.
  - unfold append. now rewrite <- app_assoc.
Qed.

(** [get_teams] on a [teams] table with distinct columns, one of them
    ['server_id'], and rows of the width of the table: one dictionary for
    each row, in the order of the rows, each pairing the columns after the
    first with the values after the first. *)
Theorem get_teams_rows (guild_id : Z) (w : world DB) (rows : list row)
    (identifier : string) (others : list string) (c0 c1 c2 : DB) :
  cursor_execute (search_query "teams" (get_check "server_id" true) "")
    (Some [VInt guild_id]) (conn w) = (Ok tt, c0) ->
  cursor_fetchall c0 = (Ok rows, c1) ->
  query (catalog_query "teams") None c1
  = (Ok (catalog_rows (map VStr (identifier :: others))), c2) ->
  NoDup (identifier :: others) ->
  "server_id" ∈ identifier :: others ->
  Forall (fun r : row => length r = length (identifier :: others)) rows ->
  fst (get_teams guild_id w)
  = Ok (VList (map (fun r => VDict (combine (map KStr others) (slice_from 1 r))) rows)).
Proof.
  intros Hexec Hfetch Hcat Hnd Hsid Hwidth.
  unfold get_teams, _search, bind. unfold execute at 1. rewrite Hexec.
  match goal with
  | |- context [_format_sql_data _ ?w1] =>
      rewrite (format_sql_data_rows "teams" w1 rows identifier others c1 c2
                 Hfetch Hcat Hnd Hsid Hwidth)
  end.
  rewrite map_map. now destruct rows.
Qed.

(** A table without a ['server_id'] column cannot be read: its field names
    are all kept while each row loses its first value, so as soon as a row
    is fetched [_format_sql_data], and with it [_search], raises
    [IndexError]. *)
Theorem search_without_server_id (table_name field_name : string) (value : value)
    (case_sensitive : bool) (extra_query : string) (all_results : bool)
    (w : world DB) (first : row) (rows : list row) (names : list string)
    (c0 c1 c2 : DB) :
  cursor_execute
    (search_query table_name (get_check field_name case_sensitive) extra_query)
    (Some [value]) (conn w) = (Ok tt, c0) ->
  cursor_fetchall c0 = (Ok (first :: rows), c1) ->
  query (catalog_query table_name) None c1
  = (Ok (catalog_rows (map VStr names)), c2) ->
  "server_id" ∉ names ->
  names <> [] ->
  length first = length names ->
  fst (_search table_name field_name value case_sensitive extra_query all_results w)
  = Raise IndexError /\
  forall s l, fst (_format_sql_data table_name (World c0 s l)) = Raise IndexError.
Proof.
  intros Hexec Hfetch Hcat Hsid Hne Hwidth.
  assert (Hfmt : forall s l, exists w',
             _format_sql_data table_name (World c0 s l) = (Raise IndexError, w')).
  { intros s l. rewrite format_sql_data_uniform. unfold bind. unfold fetchall at 1.
    cbn [conn]. rewrite Hfetch.
    erewrite get_table_fields_run by (cbn; exact Hcat).
    destruct (contains_str "server_id" (map VStr names)) eqn:Hc.
    { exfalso. apply Hsid. apply contains_str_iff in Hc.
      apply list_elem_of_In, in_map_iff in Hc as (n & [= ->] & Hn).
      now apply list_elem_of_In. }
    unfold lift. cbn [comprehension].
    rewrite (dictify_raises_index (slice_from 1 first) (map VStr names) (map KStr names)).
    - cbn. now eexists.
    - apply comprehension_to_key.
    - unfold slice_from. rewrite length_skipn, length_map, Hwidth.
      destruct names; [congruence|cbn; lia]. }
  split.
  - unfold _search, bind. unfold execute at 1. rewrite Hexec.
    destruct (Hfmt (store w)
                (append (calls w)
                   (Execute (search_query table_name
                      (get_check field_name case_sensitive) extra_query) (Some [value]))))
      as [w' ->].
    reflexivity.
  - intros s l. now destruct (Hfmt s l) as [w' ->].
Qed.

(** An error of the driver is the error of [_search]: whether the
    statement, the fetch, or the catalog query and its fetch raise, the same
    exception comes out. A catalog that fails does so even when no row was
    matched. *)
Theorem search_driver_error (table_name field_name : string) (value : value)
    (case_sensitive : bool) (extra_query : string) (all_results : bool)
    (w : world DB) (e : exn) (c : DB) :
  query (search_query table_name (get_check field_name case_sensitive) extra_query)
    (Some [value]) (conn w) = (Raise e, c)
  \/ (exists rows c0,
        query (search_query table_name (get_check field_name case_sensitive) extra_query)
          (Some [value]) (conn w) = (Ok rows, c0) /\
        query (catalog_query table_name) None c0 = (Raise e, c)) ->
  fst (_search table_name field_name value case_sensitive extra_query all_results w)
  = Raise e /\
  conn (snd (_search table_name field_name value case_sensitive extra_query all_results w))
  = c.
Proof.
  unfold query, _search, _format_sql_data, _get_table_fields, bind, execute, fetchall.
  intros [Hq|(rows & c0 & Hq & Hcat)]; cbn.
  - destruct (cursor_execute _ (Some [value]) (conn w)) as [[[]|e1] c1]; cbn.
    + rewrite Hq. now cbn.
    + now injection Hq as -> ->.
  - destruct (cursor_execute _ (Some [value]) (conn w)) as [[[]|e1] c1]; cbn;
      [|discriminate].
    rewrite Hq. cbn.
    destruct (cursor_execute _ None c0) as [[[]|e2] c2]; cbn.
    + rewrite Hcat. now cbn.
    + now injection Hcat as -> ->.
Qed.

End Search.

(** ** Placeholders and variables *)

Lemma string_app_cons (x : ascii) (a b : string) :
  (String x a ++ b)%string = String x (a ++ b)%string.
Proof. reflexivity. Qed.

Lemma string_app_nil (b : string) : ("" ++ b)%string = b.
Proof. reflexivity. Qed.

Lemma string_app_assoc (a b c : string) : ((a ++ b) ++ c)%string = (a ++ b ++ c)%string.
Proof.
  induction a as [|x a IH]; [reflexivity|].
  change (String x ((a ++ b) ++ c) = String x (a ++ b ++ c))%string.
  f_equal. exact IH.
Qed.

Lemma has_char_app (c : ascii) (a b : string) :
  has_char c (a ++ b) = (has_char c a || has_char c b)%bool.
Proof.
  induction a as [|x a IH]; [reflexivity|].
  rewrite string_app_cons. cbn.
  destruct (Ascii.eqb c x); [reflexivity|apply IH].
Qed.

Lemma placeholders_free_app (a b : string) :
  percent_free a -> count_placeholders (a ++ b) = count_placeholders b.
Proof.
  unfold percent_free. induction a as [|x a IH]; intros Hfree; [reflexivity|].
  rewrite string_app_cons. cbn [has_char] in Hfree. cbn [count_placeholders].
  rewrite Ascii.eqb_sym in Hfree.
  destruct (Ascii.eqb x "%"%char); [discriminate|]. now apply IH.
Qed.

Lemma placeholders_check (field_name : string) (case_sensitive : bool) (rest : string) :
  percent_free field_name ->
  count_placeholders (get_check field_name case_sensitive ++ rest) = S (count_placeholders rest).
Proof.
  intros Hfree. unfold get_check. destruct case_sensitive.
  - rewrite !string_app_assoc.
    rewrite (placeholders_free_app "WHERE ") by reflexivity.
    rewrite (placeholders_free_app field_name) by assumption.
    now rewrite !string_app_cons, string_app_nil.
  - rewrite !string_app_assoc.
    rewrite (placeholders_free_app "WHERE LOWER(") by reflexivity.
    rewrite (placeholders_free_app field_name) by assumption.
    now rewrite !string_app_cons, string_app_nil.
Qed.

Lemma percent_free_join (sep : string) (names : list string) :
  percent_free sep -> Forall percent_free names ->
  percent_free (join_strings sep names).
Proof.
  unfold percent_free. intros Hsep. induction 1 as [|n names Hn Hnames IH];
    [reflexivity|].
  destruct names as [|n' names]; [exact Hn|].
  change (join_strings sep (n :: n' :: names))
    with (n ++ sep ++ join_strings sep (n' :: names))%string.
  now rewrite !has_char_app, Hn, Hsep, IH.
Qed.

Lemma placeholders_blanks {A : Type} (names : list A) (rest : string) :
  count_placeholders (join_strings ", " (map (fun _ => "%s") names) ++ rest)
  = length names + count_placeholders rest.
Proof.
  induction names as [|n names IH]; [reflexivity|].
  destruct names as [|n' names]; [reflexivity|].
  change (join_strings ", " (map (fun _ => "%s") (n :: n' :: names)))
    with ("%s" ++ ", " ++ join_strings ", " (map (fun _ => "%s") (n' :: names)))%string.
  rewrite !string_app_assoc.
  rewrite !string_app_cons, !string_app_nil.
  cbn [count_placeholders Ascii.eqb Bool.eqb].
  rewrite IH. reflexivity.
Qed.

Lemma placeholders_search_query (table_name field_name extra_query : string)
    (case_sensitive : bool) :
  percent_free table_name -> percent_free field_name -> percent_free extra_query ->
  count_placeholders (DBHandler.search_query table_name
                  (get_check field_name case_sensitive) extra_query) = 1.
Proof.
  intros Ht Hf He. unfold DBHandler.search_query.
  rewrite (placeholders_free_app nl) by reflexivity.
  rewrite (placeholders_free_app indent) by reflexivity.
  rewrite (placeholders_free_app "SELECT * FROM ") by reflexivity.
  rewrite (placeholders_free_app table_name) by assumption.
  rewrite (placeholders_free_app nl) by reflexivity.
  rewrite (placeholders_free_app indent) by reflexivity.
  rewrite placeholders_check by assumption.
  rewrite (placeholders_free_app " ") by reflexivity.
  now rewrite (placeholders_free_app extra_query).
Qed.

Lemma placeholders_update_query (table_name update_string field_name extra_query : string)
    (case_sensitive : bool) :
  percent_free table_name -> percent_free update_string ->
  percent_free field_name -> percent_free extra_query ->
  count_placeholders (DBHandler.update_query table_name update_string
                  (get_check field_name case_sensitive) extra_query) = 1.
Proof.
  intros Ht Hu Hf He. unfold DBHandler.update_query.
  rewrite (placeholders_free_app nl) by reflexivity.
  rewrite (placeholders_free_app indent) by reflexivity.
  rewrite (placeholders_free_app "UPDATE ") by reflexivity.
  rewrite (placeholders_free_app table_name) by assumption.
  rewrite (placeholders_free_app nl) by reflexivity.
  rewrite (placeholders_free_app indent) by reflexivity.
  rewrite (placeholders_free_app update_string) by assumption.
  rewrite (placeholders_free_app nl) by reflexivity.
  rewrite (placeholders_free_app indent) by reflexivity.
  rewrite placeholders_check by assumption.
  rewrite (placeholders_free_app " ") by reflexivity.
  now rewrite (placeholders_free_app extra_query).
Qed.

Lemma placeholders_insert (table_name : string) (names : list string) :
  percent_free table_name -> Forall percent_free names ->
  count_placeholders
    ("INSERT INTO " ++ table_name ++ " " ++
     ("(" ++ join_strings ", " names ++ ")") ++
     " VALUES " ++
     ("(" ++ join_strings ", " (map (fun _ => "%s") names) ++ ")"))
  = length names.
Proof.
  intros Ht Hn.
  rewrite (placeholders_free_app "INSERT INTO ") by reflexivity.
  rewrite (placeholders_free_app table_name) by assumption.
  rewrite (placeholders_free_app " ") by reflexivity.
  rewrite !string_app_assoc.
  rewrite (placeholders_free_app "(") by reflexivity.
  rewrite (placeholders_free_app (join_strings ", " names))
    by (now apply percent_free_join).
  rewrite (placeholders_free_app ")") by reflexivity.
  rewrite (placeholders_free_app " VALUES ") by reflexivity.
  rewrite (placeholders_free_app "(") by reflexivity.
  rewrite placeholders_blanks. cbn. lia.
Qed.

Lemma str_items_type_error (items : list value) :
  (exists v, v ∈ items /\ forall s, v <> VStr s) -> str_items items = Raise TypeError.
Proof.
  induction items as [|v items IH]; intros (x & Hin & Hx).
  - now apply elem_of_nil in Hin.
  - destruct v; try reflexivity. cbn.
    rewrite IH; [reflexivity|].
    apply elem_of_cons in Hin as [->|Hin]; [now destruct (Hx s)|].
    now exists x.
Qed.

Lemma dict_set_set (d : pydict) (k : key) (v v' : value) :
  dict_set (dict_set d k v) k v' = dict_set d k v'.
Proof.
  induction d as [|[k0 v0] d IH]; cbn.
  - now destruct (decide (k = k)).
  - destruct (decide (k0 = k)) as [->|Hne]; cbn.
    + now destruct (decide (k = k)).
    + destruct (decide (k0 = k)); [contradiction|]. now rewrite IH.
Qed.

Section Statements.

Context {DB : Type} `{Cursor DB}.
Variable py_str : value -> string.

Import DBHandler.

Lemma search_first_call (table_name field_name : string) (value : value)
    (case_sensitive : bool) (extra_query : string) (all_results : bool) (w : world DB) :
  exists rest,
    calls (snd (_search table_name field_name value case_sensitive extra_query all_results w))
    = (calls w ++
       Execute (search_query table_name (get_check field_name case_sensitive) extra_query)
         (Some [value]) :: rest)%list.
Proof.
  unfold _search, bind.
  destruct (execute _ _ w) as [[[]|e] w1] eqn:Hex;
    unfold execute, append in Hex; destruct (cursor_execute _ _ _) as [r c1];
    injection Hex as -> <-.
  2:{ now exists []. }
  destruct (format_sql_data_calls table_name
              (World c1 (store w)
                 (calls w ++ [Execute (search_query table_name
                    (get_check field_name case_sensitive) extra_query) (Some [value])])%list))
    as (rest & Hcalls & _).
  exists rest.
  destruct (_format_sql_data _ _) as [[[|first results]|e] w2]; cbn in *;
    try destruct all_results; cbn; rewrite Hcalls; cbn; rewrite <- app_assoc;
    reflexivity.
Qed.

(** In the statement [_search] executes there is one placeholder for the
    one variable it binds, when the table name, the field name and the
    extra query hold no percent sign. *)
Theorem search_placeholders (table_name field_name : string) (value : value)
    (case_sensitive : bool) (extra_query : string) (all_results : bool) (w : world DB) :
  percent_free table_name -> percent_free field_name -> percent_free extra_query ->
  exists sql vars rest,
    calls (snd (_search table_name field_name value case_sensitive extra_query all_results w))
    = (calls w ++ Execute sql (Some vars) :: rest)%list /\
    count_placeholders sql = 1 /\ length vars = 1.
Proof.
  intros Ht Hf He.
  destruct (search_first_call table_name field_name value case_sensitive extra_query
              all_results w) as [rest Hcalls].
  exists (search_query table_name (get_check field_name case_sensitive) extra_query),
    [value], rest.
  split; [exact Hcalls|]. split; [|reflexivity].
  now apply placeholders_search_query.
Qed.

(** The statement of [_update_many] has a single placeholder, the one of
    the condition, whatever the number of fields to update, while a variable
    is bound for every field and one more for the condition: the two numbers
    agree only when there is nothing to update. *)
Theorem update_many_placeholders (table_name check_field : string) (check_value : value)
    (updates : pydict) (names : list string) (case_sensitive : bool)
    (extra_query : string) (w : world DB) :
  wf_dict updates ->
  dict_keys updates = map KStr names ->
  percent_free table_name -> Forall percent_free names ->
  percent_free check_field -> percent_free extra_query ->
  exists sql vars,
    _update_many table_name check_field check_value updates case_sensitive extra_query w
    = bind (execute sql (Some vars)) (fun _ => commit) w /\
    count_placeholders sql = 1 /\
    length vars = S (length updates).
Proof.
  intros Hwf Hkeys Ht Hn Hf He.
  exists (update_query table_name (join_strings " AND " names)
            (get_check check_field case_sensitive) extra_query),
    (dict_values updates ++ [check_value])%list.
  split; [now apply update_many_run|]. split.
  - apply placeholders_update_query; try assumption.
    now apply percent_free_join.
  - rewrite length_app. unfold dict_values. rewrite length_map. cbn. lia.
Qed.

(** A key of [updates] that is not a string stops [_update_many] with
    [TypeError] where the field names are joined: nothing is executed and
    nothing is committed. *)
Theorem update_many_type_error (table_name check_field : string) (check_value : value)
    (updates : pydict) (k : key) (case_sensitive : bool) (extra_query : string)
    (w : world DB) :
  wf_dict updates ->
  k ∈ dict_keys updates -> (forall s, k <> KStr s) ->
  _update_many table_name check_field check_value updates case_sensitive extra_query w
  = (Raise TypeError, w).
Proof.
  intros Hwf Hk Hstr. unfold _update_many.
  pose proof (collect_dict (fun x => x) updates Hwf) as Hloop.
  rewrite map_id in Hloop.
  unfold bind at 1. unfold lift at 1. rewrite Hloop.
  unfold bind at 1. unfold lift at 1. unfold str_join.
  rewrite str_items_type_error; [reflexivity|].
  exists (of_key k). split.
  - apply list_elem_of_In, in_map. now apply list_elem_of_In.
  - intros s Hs. destruct k; try discriminate. injection Hs as ->. now apply (Hstr s).
Qed.

(** The order of the calls in [_update_many]: it commits only after a
    statement that the driver accepted. Either nothing is executed and the
    call raises, or the statement fails, its error comes out and nothing is
    committed, or the statement is executed and committed and the outcome
    is that of the commit. The store is never touched. *)
Theorem update_many_commit (table_name check_field : string) (check_value : value)
    (updates : pydict) (case_sensitive : bool) (extra_query : string) (w : world DB) :
  let r := _update_many table_name check_field check_value updates case_sensitive
             extra_query w in
  store (snd r) = store w /\
  ((calls (snd r) = calls w /\ conn (snd r) = conn w /\ exists e, fst r = Raise e) \/
   exists sql vars,
     (calls (snd r) = (calls w ++ [Execute sql vars])%list /\
      exists e, fst (cursor_execute sql vars (conn w)) = Raise e /\ fst r = Raise e) \/
     (calls (snd r) = (calls w ++ [Execute sql vars; Commit])%list /\
      fst (cursor_execute sql vars (conn w)) = Ok tt /\
      fst r = fst (conn_commit (snd (cursor_execute sql vars (conn w)))))).
Proof.
  unfold _update_many, bind, lift, execute, commit, append. cbn.
  destruct (for_each _ _ _) as [[update_fields update_values]|e]; cbn.
  2:{ split; [reflexivity|]. left. repeat split. now exists e. }
  destruct (str_join " AND " update_fields) as [update_string|e]; cbn.
  2:{ split; [reflexivity|]. left. repeat split. now exists e. }
  destruct (cursor_execute _ _ (conn w)) as [[[]|e] c1] eqn:Hex; cbn.
  - destruct (conn_commit c1) as [r c2] eqn:Hc; cbn.
    split; [reflexivity|]. right.
    eexists _, _. right. rewrite Hex. cbn. rewrite Hc. cbn.
    rewrite <- app_assoc. repeat split.
  - split; [reflexivity|]. right.
    eexists _, _. left. rewrite Hex. cbn. split; [reflexivity|]. now exists e.
Qed.

End Statements.

(** ** Further properties of [_add] *)

Lemma dict_keys_set_keeps (d : pydict) (k k' : key) (v : value) :
  k ∈ dict_keys d -> k ∈ dict_keys (dict_set d k' v).
Proof.
  intros Hk. destruct (decide (k' ∈ dict_keys d)) as [Hin|Hin].
  - now rewrite dict_keys_set_present.
  - rewrite dict_keys_set_fresh by assumption. apply elem_of_app. now left.
Qed.

Lemma dict_get_elem (d : pydict) (k : key) (v : value) :
  dict_get d k = Some v -> k ∈ dict_keys d.
Proof.
  induction d as [|[k0 v0] d IH]; cbn; [discriminate|].
  destruct (decide (k0 = k)) as [->|_]; intros Hv; apply elem_of_cons;
    [now left|right; now apply IH].
Qed.

Lemma dict_entry_at (d : pydict) (i : nat) (k : key) :
  nth_error (dict_keys d) i = Some k ->
  exists v, (k, v) ∈ d /\ nth_error (dict_values d) i = Some v.
Proof.
  revert i. induction d as [|[k0 v0] d IH]; intros [|i]; cbn; try discriminate.
  - intros [= ->]. exists v0. split; [apply elem_of_cons; now left|reflexivity].
  - intros Hk. destruct (IH i Hk) as (v & Hin & Hv).
    exists v. split; [apply elem_of_cons; now right|assumption].
Qed.

Lemma NoDup_of_KStr (names : list string) : NoDup (map KStr names) -> NoDup names.
Proof.
  induction names as [|n names IH]; cbn; intros Hnd; [constructor|].
  apply NoDup_cons in Hnd as [Hn Hnd]. constructor; [|now apply IH].
  intros Hin. apply Hn. apply list_elem_of_In, in_map. now apply list_elem_of_In.
Qed.

Section AddMore.

Context {DB : Type} `{Cursor DB}.
Variable py_str : value -> string.

Import DBHandler.

(** What [_add] does with a dictionary of field names. *)
Lemma add_run (table_name : string) (guild_id : Z) (given_values : loc)
    (d : pydict) (names : list string) (w : world DB) :
  store w !! given_values = Some d ->
  wf_dict d ->
  dict_keys (dict_set d (KStr "server_id") (VInt guild_id)) = map KStr names ->
  _add py_str table_name guild_id given_values w =
  bind
    (execute
       ("INSERT INTO " ++ table_name ++ " " ++
        ("(" ++ join_strings ", " names ++ ")") ++
        " VALUES " ++
        ("(" ++ join_strings ", " (map (fun _ => "%s") names) ++ ")"))
       (Some (map (bound_value py_str)
                (dict_values (dict_set d (KStr "server_id") (VInt guild_id))))))
    (fun _ => commit)
    (World (conn w)
       (<[given_values := dict_set d (KStr "server_id") (VInt guild_id)]> (store w))
       (calls w)).
Proof.
  intros Hl Hwf Hkeys.
  set (d' := dict_set d (KStr "server_id") (VInt guild_id)) in *.
  set (w1 := World (conn w) (<[given_values := d']> (store w)) (calls w)).
  assert (Hset : setitem given_values (KStr "server_id") (VInt guild_id) w = (Ok tt, w1)).
  { unfold setitem, bind, deref. now rewrite Hl. }
  assert (Hderef : deref given_values w1 = (Ok d', w1)).
  { unfold deref, w1. cbn. now rewrite lookup_insert_eq. }
  assert (Hwf' : wf_dict d') by now apply wf_dict_set.
  unfold _add. unfold bind at 1. rewrite Hset.
  unfold bind at 1. rewrite Hderef.
  unfold bind at 1. unfold lift at 1.
  rewrite (for_each_ext (dict_keys d') _
             (fun '(fs, vs) key =>
                x <~ dict_getitem d' key ;;
                Ok (append fs (of_key key), append vs (bound_value py_str x)))).
  2:{ intros [fs vs] key. unfold result_bind.
      destruct (dict_getitem d' key) as [x|e]; [|reflexivity].
      rewrite <- (bound_value_replace py_str). now destruct (is_dict x). }
  rewrite (collect_dict (bound_value py_str) d' Hwf').
  rewrite Hkeys, of_key_KStr.
  unfold bind at 1. unfold lift at 1. unfold parenthesise at 1.
  rewrite str_join_strings. cbn [result_bind].
  unfold bind at 1. unfold lift at 1. unfold parenthesise at 1.
  rewrite (placeholders _ names).
  2:{ rewrite length_map. unfold dict_values. rewrite length_map.
      rewrite <- (length_map KStr names), <- Hkeys. unfold dict_keys.
      now rewrite length_map. }
  rewrite str_join_strings. reflexivity.
Qed.

(** In the [INSERT] of [_add] the placeholders are as many as the
    variables, one for each field, ['server_id'] included, when neither the
    table name nor a field name holds a percent sign. *)
Theorem add_placeholders (table_name : string) (guild_id : Z) (given_values : loc)
    (d : pydict) (names : list string) (w : world DB) :
  store w !! given_values = Some d ->
  wf_dict d ->
  dict_keys (dict_set d (KStr "server_id") (VInt guild_id)) = map KStr names ->
  percent_free table_name -> Forall percent_free names ->
  exists sql vars,
    _add py_str table_name guild_id given_values w =
    bind (execute sql (Some vars)) (fun _ => commit)
      (World (conn w)
         (<[given_values := dict_set d (KStr "server_id") (VInt guild_id)]> (store w))
         (calls w)) /\
    count_placeholders sql = length vars /\
    length vars = length names.
Proof.
  intros Hl Hwf Hkeys Ht Hn. eexists _, _.
  split; [now apply (add_run table_name guild_id given_values d names)|].
  assert (Hlen : length (map (bound_value py_str)
                   (dict_values (dict_set d (KStr "server_id") (VInt guild_id))))
                 = length names).
  { rewrite length_map. unfold dict_values. rewrite length_map.
    rewrite <- (length_map KStr names), <- Hkeys. unfold dict_keys.
    now rewrite length_map. }
  split; [|exact Hlen]. rewrite Hlen. now apply placeholders_insert.
Qed.

(** The field ['server_id'] is named once in the [INSERT] of [_add], and the
    variable bound at its place is the guild id: a value the caller had put
    under ['server_id'] is not sent. The field list of the statement is
    [names] in order and the variables are in the same order, so the place
    [i] is the same place in both. *)
Theorem add_server_id_field (table_name : string) (guild_id : Z) (given_values : loc)
    (d : pydict) (names : list string) (w : world DB) :
  store w !! given_values = Some d ->
  wf_dict d ->
  dict_keys (dict_set d (KStr "server_id") (VInt guild_id)) = map KStr names ->
  exists vars i,
    _add py_str table_name guild_id given_values w =
    bind
      (execute
         ("INSERT INTO " ++ table_name ++ " " ++
          ("(" ++ join_strings ", " names ++ ")") ++
          " VALUES " ++
          ("(" ++ join_strings ", " (map (fun _ => "%s") names) ++ ")"))
         (Some vars))
      (fun _ => commit)
      (World (conn w)
         (<[given_values := dict_set d (KStr "server_id") (VInt guild_id)]> (store w))
         (calls w)) /\
    vars = map (bound_value py_str)
             (dict_values (dict_set d (KStr "server_id") (VInt guild_id))) /\
    length vars = length names /\
    NoDup names /\
    nth_error names i = Some "server_id" /\
    nth_error vars i = Some (VInt guild_id) /\
    (forall j, nth_error names j = Some "server_id" -> j = i).
Proof.
  intros Hl Hwf Hkeys.
  set (d' := dict_set d (KStr "server_id") (VInt guild_id)) in *.
  assert (Hwf' : wf_dict d') by now apply wf_dict_set.
  assert (Hin : KStr "server_id" ∈ dict_keys d').
  { apply (dict_get_elem d' _ (VInt guild_id)). apply dict_get_set_eq. }
  apply list_elem_of_In, In_nth_error in Hin as [i Hi].
  destruct (dict_entry_at d' i _ Hi) as (v & Hentry & Hv).
  assert (v = VInt guild_id) as ->.
  { apply (dict_get_in d' _ _ Hwf') in Hentry.
    unfold d' in Hentry. rewrite dict_get_set_eq in Hentry. congruence. }
  assert (Hnd : NoDup names) by (apply NoDup_of_KStr; now rewrite <- Hkeys).
  assert (Hni : nth_error names i = Some "server_id").
  { rewrite Hkeys, nth_error_map in Hi.
    destruct (nth_error names i) as [n|]; cbn in Hi; [|discriminate].
    now injection Hi as ->. }
  exists (map (bound_value py_str) (dict_values d')), i.
  split; [now apply (add_run table_name guild_id given_values d names)|].
  split; [reflexivity|].
  split.
  { rewrite length_map. unfold dict_values. rewrite length_map.
    rewrite <- (length_map KStr names), <- Hkeys. unfold dict_keys.
    now rewrite length_map. }
  split; [exact Hnd|].
  split; [exact Hni|].
  split; [now rewrite nth_error_map, Hv|].
  intros j Hj. apply NoDup_ListNoDup in Hnd.
  apply (proj1 (List.NoDup_nth_error names) Hnd j i); [|congruence].
  apply nth_error_Some. congruence.
Qed.

(** A key of [given_values] that is not a string stops [_add] with
    [TypeError] where the field names are joined. Nothing is executed, but
    the caller's dictionary has been given its ['server_id'] already. *)
Theorem add_type_error (table_name : string) (guild_id : Z) (given_values : loc)
    (d : pydict) (k : key) (w : world DB) :
  store w !! given_values = Some d ->
  wf_dict d ->
  k ∈ dict_keys d -> (forall s, k <> KStr s) ->
  _add py_str table_name guild_id given_values w =
  (Raise TypeError,
   World (conn w)
     (<[given_values := dict_set d (KStr "server_id") (VInt guild_id)]> (store w))
     (calls w)).
Proof.
  intros Hl Hwf Hk Hstr.
  set (d' := dict_set d (KStr "server_id") (VInt guild_id)) in *.
  set (w1 := World (conn w) (<[given_values := d']> (store w)) (calls w)).
  assert (Hset : setitem given_values (KStr "server_id") (VInt guild_id) w = (Ok tt, w1)).
  { unfold setitem, bind, deref. now rewrite Hl. }
  assert (Hderef : deref given_values w1 = (Ok d', w1)).
  { unfold deref, w1. cbn. now rewrite lookup_insert_eq. }
  assert (Hwf' : wf_dict d') by now apply wf_dict_set.
  unfold _add. unfold bind at 1. rewrite Hset.
  unfold bind at 1. rewrite Hderef.
  unfold bind at 1. unfold lift at 1.
  rewrite (for_each_ext (dict_keys d') _
             (fun '(fs, vs) key =>
                x <~ dict_getitem d' key ;;
                Ok (append fs (of_key key), append vs (bound_value py_str x)))).
  2:{ intros [fs vs] key. unfold result_bind.
      destruct (dict_getitem d' key) as [x|e]; [|reflexivity].
      rewrite <- (bound_value_replace py_str). now destruct (is_dict x). }
  rewrite (collect_dict (bound_value py_str) d' Hwf').
  unfold bind at 1. unfold lift at 1. unfold parenthesise at 1. unfold str_join.
  rewrite str_items_type_error; [reflexivity|].
  exists (of_key k). split.
  - apply list_elem_of_In, in_map, list_elem_of_In. now apply dict_keys_set_keeps.
  - intros s Hs. destruct k; try discriminate. injection Hs as ->. now apply (Hstr s).
Qed.

(** Two calls of [_add] on one dictionary: after the second the dictionary
    is the original one with ['server_id'] set to the second guild id, as if
    the first call had not been; with the same guild id the second call
    leaves the dictionary as the first left it. *)
Theorem add_twice (table1 table2 : string) (guild1 guild2 : Z) (given_values : loc)
    (d : pydict) (w : world DB) :
  store w !! given_values = Some d ->
  let w1 := snd (_add py_str table1 guild1 given_values w) in
  let w2 := snd (_add py_str table2 guild2 given_values w1) in
  store w2 = <[given_values := dict_set d (KStr "server_id") (VInt guild2)]> (store w) /\
  (guild1 = guild2 -> store w2 = store w1).
Proof.
  intros Hl w1 w2.
  assert (H1 : store w1
               = <[given_values := dict_set d (KStr "server_id") (VInt guild1)]> (store w))
    by now apply add_store.
  assert (H2 : store w2
               = <[given_values := dict_set (dict_set d (KStr "server_id") (VInt guild1))
                                     (KStr "server_id") (VInt guild2)]> (store w1)).
  { apply add_store. rewrite H1. apply lookup_insert_eq. }
  rewrite dict_set_set in H2.
  split.
  - rewrite H2, H1. apply insert_insert_eq.
  - intros <-. rewrite H2, H1. apply insert_insert_eq.
Qed.

End AddMore.

(** ** The template configuration and the accessors *)

Lemma comprehension_if_cons {A : Type} (cond : A -> result bool) (x : A) (l : list A) :
  comprehension_if cond (x :: l) =
  (b <~ cond x ;;
   xs <~ comprehension_if cond l ;;
   Ok (if b : bool then x :: xs else xs)).
Proof. reflexivity. Qed.

Lemma blank_keys (d pre suf : pydict) :
  d = (pre ++ suf)%list -> wf_dict d ->
  comprehension_if
    (fun key => x <~ py_getitem (VDict d) key ;; Ok (negb (truthy_value x)))
    (map of_key (dict_keys suf))
  = Ok (map of_key
          (dict_keys (List.filter (fun kv => negb (truthy_value (snd kv))) suf))).
Proof.
  revert pre. induction suf as [|[k v] suf IH]; intros pre Hd Hwf; [reflexivity|].
  change (map of_key (dict_keys ((k, v) :: suf)))
    with (of_key k :: map of_key (dict_keys suf)).
  rewrite comprehension_if_cons.
  rewrite (IH (pre ++ [(k, v)])%list); [|now rewrite <- app_assoc|assumption].
  assert (Hget : py_getitem (VDict d) (of_key k) = Ok v).
  { cbn [py_getitem]. rewrite of_key_to_key. cbn [result_bind]. unfold dict_getitem.
    rewrite (dict_get_in d k v Hwf); [reflexivity|].
    rewrite Hd. apply elem_of_app. right. apply elem_of_cons. now left. }
  rewrite Hget. cbn [result_bind List.filter snd]. now destruct (truthy_value v).
Qed.

Lemma dict_del_middle (pre suf : pydict) (k : key) (v : value) :
  k ∉ dict_keys pre -> dict_del (pre ++ (k, v) :: suf)%list k = Ok (pre ++ suf)%list.
Proof.
  induction pre as [|[k0 v0] pre IH]; cbn; intros Hk.
  - now destruct (decide (k = k)).
  - apply not_elem_of_cons in Hk as [Hne Hk].
    destruct (decide (k0 = k)); [congruence|]. now rewrite IH.
Qed.

Lemma delete_blank_loop (pre suf : pydict) :
  wf_dict (pre ++ suf)%list ->
  for_each
    (map of_key (dict_keys (List.filter (fun kv => negb (truthy_value (snd kv))) suf)))
    (fun template_config key => py_delitem template_config key)
    (VDict (pre ++ suf)%list)
  = Ok (VDict (pre ++ filled suf)%list).
Proof.
  revert pre. induction suf as [|[k v] suf IH]; intros pre Hwf; [reflexivity|].
  cbn [List.filter snd filled]. destruct (truthy_value v) eqn:Hv; cbn [negb].
  - replace (pre ++ (k, v) :: suf)%list with ((pre ++ [(k, v)]) ++ suf)%list
      by now rewrite <- app_assoc.
    rewrite IH by now rewrite <- app_assoc.
    fold (filled suf). now rewrite <- app_assoc.
  - cbn [dict_keys map fst for_each py_delitem].
    rewrite of_key_to_key. cbn [result_bind].
    rewrite dict_del_middle.
    2:{ unfold wf_dict, dict_keys in Hwf. rewrite map_app in Hwf.
        apply NoDup_app in Hwf as (_ & Hdisj & _).
        intros Hin. apply (Hdisj _ Hin). apply elem_of_cons. now left. }
    cbn [result_bind]. fold (dict_keys (List.filter (fun kv => negb (truthy_value (snd kv))) suf)).
    apply IH.
    unfold wf_dict, dict_keys in *. rewrite map_app in *. cbn in Hwf.
    apply NoDup_app in Hwf as (Hpre & Hdisj & Hsuf).
    apply NoDup_cons in Hsuf as [_ Hsuf].
    apply NoDup_app. repeat split; [assumption| |assumption].
    intros x Hx Hx'. apply (Hdisj x Hx). apply elem_of_cons. now right.
Qed.

Lemma filled_in (d : pydict) (kv : key * value) :
  kv ∈ filled d <-> kv ∈ d /\ truthy_value (snd kv) = true.
Proof.
  unfold filled. rewrite !list_elem_of_In, filter_In. reflexivity.
Qed.

Lemma wf_filled (d : pydict) : wf_dict d -> wf_dict (filled d).
Proof.
  unfold wf_dict, filled, dict_keys. induction d as [|[k v] d IH]; cbn; intros Hnd;
    [assumption|].
  apply NoDup_cons in Hnd as [Hk Hnd].
  destruct (truthy_value v); cbn; [|now apply IH].
  apply NoDup_cons. split; [|now apply IH].
  intros Hin. apply Hk.
  apply list_elem_of_In, in_map_iff in Hin as ([k' v'] & Hk' & Hin). cbn in Hk'. subst k'.
  apply filter_In in Hin as [Hin _].
  apply list_elem_of_In, in_map_iff. now exists (k, v').
Qed.

Section Accessors.

Context {DB : Type} `{Cursor DB}.
Variable py_str : value -> string.

Import DBHandler.

Lemma search_one_value (table_name field_name : string) (value : value)
    (case_sensitive : bool) (extra_query : string) (w w' : world DB) (v : Py.value) :
  _search table_name field_name value case_sensitive extra_query false w = (Ok v, w') ->
  v = VList [] \/ exists d, v = VDict d /\ wf_dict d.
Proof.
  intros Hs.
  pose proof (search_shape table_name field_name value case_sensitive extra_query false w)
    as Hshape.
  rewrite Hs in Hshape. cbn in Hshape.
  destruct v as [| | |[|first others]|d]; try contradiction.
  - now left.
  - now destruct Hshape as [[=] _].
  - right. exists d. now destruct Hshape.
Qed.

Lemma template_of_dict (d : pydict) :
  wf_dict d ->
  (keys <~ py_iter (VDict d) ;;
   empty_keys <~
     comprehension_if
       (fun key => x <~ py_getitem (VDict d) key ;; Ok (negb (truthy_value x)))
       keys ;;
   for_each empty_keys
     (fun template_config key => py_delitem template_config key) (VDict d))
  = Ok (VDict (filled d)).
Proof.
  intros Hwf. cbn [py_iter result_bind].
  rewrite (blank_keys d [] d eq_refl Hwf). cbn [result_bind].
  now apply (delete_blank_loop [] d).
Qed.

Lemma get_template_config_run (w : world DB) :
  _get_template_config w =
  match get_server_config 0 w with
  | (Ok (VDict d), w') => (Ok (VDict (filled d)), w')
  | (Ok v, w') => (Ok v, w')
  | (Raise e, w') => (Raise e, w')
  end.
Proof.
  unfold _get_template_config, bind.
  destruct (get_server_config 0 w) as [[v|e] w'] eqn:Hs; [|reflexivity].
  unfold get_server_config in Hs.
  destruct (search_one_value _ _ _ _ _ _ _ _ Hs) as [->|(d & -> & Hwf)]; [reflexivity|].
  pose proof (template_of_dict d Hwf) as Ht.
  cbn [py_iter result_bind] in Ht. unfold lift. cbn [py_iter].
  destruct (comprehension_if _ _) as [empty_keys|e]; cbn [result_bind] in Ht;
    [|discriminate].
  now rewrite Ht.
Qed.

(** [_get_template_config] returns the row of server 0 without the entries
    whose value is false ([None], zero, an empty string, list or
    dictionary), the others in their order; when there is no such row it
    returns the empty list that the search returned; an error of the search
    is its error. It makes no call of its own on the cursor. *)
Theorem template_config_prunes (w : world DB) :
  match get_server_config 0 w with
  | (Ok (VDict d), w') =>
      _get_template_config w = (Ok (VDict (filled d)), w') /\
      forall k v, (k, v) ∈ filled d <-> (k, v) ∈ d /\ truthy_value v = true
  | (Ok v, w') => v = VList [] /\ _get_template_config w = (Ok (VList []), w')
  | (Raise e, w') => _get_template_config w = (Raise e, w')
  end.
Proof.
  rewrite get_template_config_run.
  destruct (get_server_config 0 w) as [[v|e] w'] eqn:Hs; [|reflexivity].
  unfold get_server_config in Hs.
  destruct (search_one_value _ _ _ _ _ _ _ _ Hs) as [->|(d & -> & Hwf)].
  - now split.
  - split; [reflexivity|]. intros k v. apply (filled_in d (k, v)).
Qed.

Lemma add_object_run (table_name : string) (guild_id : Z) (d : pydict)
    (names : list string) (w : world DB) :
  wf_dict d ->
  dict_keys (dict_set d (KStr "server_id") (VInt guild_id)) = map KStr names ->
  add_object py_str table_name guild_id (VDict d) w =
  bind
    (execute
       ("INSERT INTO " ++ table_name ++ " " ++
        ("(" ++ join_strings ", " names ++ ")") ++
        " VALUES " ++
        ("(" ++ join_strings ", " (map (fun _ => "%s") names) ++ ")"))
       (Some (map (bound_value py_str)
                (dict_values (dict_set d (KStr "server_id") (VInt guild_id))))))
    (fun _ => commit)
    (World (conn w)
       (<[stdpp.base.fresh (dom (store w))
          := dict_set d (KStr "server_id") (VInt guild_id)]> (store w))
       (calls w)).
Proof.
  intros Hwf Hkeys. unfold add_object. unfold bind at 1. unfold alloc.
  rewrite (add_run py_str table_name guild_id _ d names); try assumption.
  - cbn [conn store calls]. now rewrite insert_insert_eq.
  - cbn [store]. apply lookup_insert_eq.
Qed.

(** Without a row for server 0 there is no template, and neither
    [add_server_config] nor [add_team_config] gets as far as an [INSERT]:
    the empty list that stands for "no row" cannot take a key, and both
    raise [TypeError] after the search. *)
Theorem add_config_without_template (server_id : Z) (team_name : string) (channel : Z)
    (w w' : world DB) :
  get_server_config 0 w = (Ok (VList []), w') ->
  add_server_config py_str server_id w = (Raise TypeError, w') /\
  add_team_config py_str server_id team_name channel w = (Raise TypeError, w').
Proof.
  intros Hs. unfold add_server_config, add_team_config, bind.
  rewrite get_template_config_run, Hs. split; reflexivity.
Qed.

(** With a row for server 0, [add_server_config] inserts the entries of that
    row that have a true value, with ['server_id'] set to the new server:
    a field whose template value is false is not among the fields of the
    [INSERT]. *)
Theorem add_server_config_insert (server_id : Z) (d : pydict) (names : list string)
    (w w' : world DB) :
  get_server_config 0 w = (Ok (VDict d), w') ->
  dict_keys (dict_set (filled d) (KStr "server_id") (VInt server_id)) = map KStr names ->
  add_server_config py_str server_id w =
  bind
    (execute
       ("INSERT INTO " ++ "server_config" ++ " " ++
        ("(" ++ join_strings ", " names ++ ")") ++
        " VALUES " ++
        ("(" ++ join_strings ", " (map (fun _ => "%s") names) ++ ")"))
       (Some (map (bound_value py_str)
                (dict_values (dict_set (filled d) (KStr "server_id") (VInt server_id))))))
    (fun _ => commit)
    (World (conn w')
       (<[stdpp.base.fresh (dom (store w'))
          := dict_set (filled d) (KStr "server_id") (VInt server_id)]> (store w'))
       (calls w')) /\
  forall n v, (KStr n, v) ∈ d -> truthy_value v = false -> n <> "server_id" ->
              n ∉ names.
Proof.
  intros Hs Hkeys.
  assert (Hwf : wf_dict d).
  { unfold get_server_config in Hs.
    destruct (search_one_value _ _ _ _ _ _ _ _ Hs) as [[=]|(d0 & [= <-] & Hwf)].
    exact Hwf. }
  split.
  - unfold add_server_config. unfold bind at 1.
    rewrite get_template_config_run, Hs.
    apply add_object_run; [now apply wf_filled|assumption].
  - intros n v Hin Hv Hn Hnames.
    assert (Hk : KStr n ∈ dict_keys (dict_set (filled d) (KStr "server_id") (VInt server_id))).
    { rewrite Hkeys. apply list_elem_of_In, in_map. now apply list_elem_of_In. }
    apply dict_keys_set_elem in Hk as [Hk|[= ->]]; [|congruence].
    apply list_elem_of_In, in_map_iff in Hk as ([k' v'] & Hk' & Hin'). cbn in Hk'. subst k'.
    apply list_elem_of_In, filled_in in Hin' as [Hin' Hv']. cbn in Hv'.
    apply (dict_get_in d _ _ Hwf) in Hin, Hin'. congruence.
Qed.

(** When the search of [update_sheet_cache] finds nothing, the row it
    inserts has the key, the time and the server id, and no team name: the
    name that was searched for is not among the variables. A value that is
    a dictionary goes in as quoted text. *)
Theorem sheet_cache_insert (last_saved : string) (server_id : Z)
    (team_name key : string) (value found : value) (w w' : world DB) :
  _search "cache" "team_name" (VStr team_name) true (server_id_check server_id) false w
  = (Ok found, w') ->
  truthy_value found = false ->
  key <> "last_saved" -> key <> "server_id" ->
  update_sheet_cache py_str last_saved server_id team_name key value w =
  bind
    (execute
       ("INSERT INTO " ++ "cache" ++ " " ++
        ("(" ++ join_strings ", " [key; "last_saved"; "server_id"] ++ ")") ++
        " VALUES " ++
        ("(" ++ join_strings ", " ["%s"; "%s"; "%s"] ++ ")"))
       (Some [bound_value py_str value; VStr last_saved; VInt server_id]))
    (fun _ => commit)
    (World (conn w')
       (<[stdpp.base.fresh (dom (store w'))
          := [(KStr key, value); (KStr "last_saved", VStr last_saved);
              (KStr "server_id", VInt server_id)]]> (store w'))
       (calls w')).
Proof.
  intros Hs Hfound Hk1 Hk2. unfold update_sheet_cache. unfold bind at 1.
  rewrite Hs, Hfound. cbn [negb dict_set].
  destruct (decide (KStr key = KStr "last_saved")) as [[= ->]|_]; [congruence|].
  cbn [dict_set].
  rewrite (add_object_run "cache" server_id _ [key; "last_saved"; "server_id"]).
  - cbn [dict_set].
    destruct (decide (KStr key = KStr "server_id")) as [[= ->]|_]; [congruence|].
    destruct (decide (KStr "last_saved" = KStr "server_id")) as [[=]|_].
    reflexivity.
  - unfold wf_dict. cbn. apply NoDup_cons. split; [|apply NoDup_singleton].
    intros Hin. apply list_elem_of_singleton in Hin. congruence.
  - cbn [dict_set].
    destruct (decide (KStr key = KStr "server_id")) as [[= ->]|_]; [congruence|].
    destruct (decide (KStr "last_saved" = KStr "server_id")) as [[=]|_].
    reflexivity.
Qed.

(** When the search of [update_sheet_cache] finds a row, it goes through
    [_update_many]: the statement has the key and [last_saved] joined by
    [" AND "], and the value is bound as it is, a dictionary as a
    dictionary. With the key ['last_saved'] itself the time takes the place
    of the value, which is not sent. *)
Theorem sheet_cache_update (last_saved : string) (server_id : Z)
    (team_name key : string) (value found : value) (w w' : world DB) :
  _search "cache" "team_name" (VStr team_name) true (server_id_check server_id) false w
  = (Ok found, w') ->
  truthy_value found = true ->
  (key <> "last_saved" ->
   update_sheet_cache py_str last_saved server_id team_name key value w =
   bind
     (execute
        (update_query "cache" (key ++ " AND " ++ "last_saved")
           (get_check "team_name" true) (server_id_check server_id))
        (Some [value; VStr last_saved; VStr team_name]))
     (fun _ => commit) w') /\
  (key = "last_saved" ->
   update_sheet_cache py_str last_saved server_id team_name key value w =
   bind
     (execute
        (update_query "cache" "last_saved"
           (get_check "team_name" true) (server_id_check server_id))
        (Some [VStr last_saved; VStr team_name]))
     (fun _ => commit) w').
Proof.
  intros Hs Hfound. split; intros Hk; unfold update_sheet_cache; unfold bind at 1;
    rewrite Hs, Hfound; cbn [negb dict_set].
  - destruct (decide (KStr key = KStr "last_saved")) as [[= ->]|_]; [congruence|].
    apply (update_many_run "cache" "team_name" (VStr team_name)
             [(KStr key, value); (KStr "last_saved", VStr last_saved)]
             [key; "last_saved"]); [|reflexivity].
    unfold wf_dict. cbn. apply NoDup_cons. split; [|apply NoDup_singleton].
    intros Hin. apply list_elem_of_singleton in Hin. congruence.
  - subst key. destruct (decide (KStr "last_saved" = KStr "last_saved")); [|congruence].
    apply (update_many_run "cache" "team_name" (VStr team_name)
             [(KStr "last_saved", VStr last_saved)] ["last_saved"]); [|reflexivity].
    unfold wf_dict. cbn. apply NoDup_singleton.
Qed.

End Accessors.

(** ** The server check *)

Lemma app_char_inj (x y : string) (c : ascii) :
  (x ++ String c "")%string = (y ++ String c "")%string -> x = y.
Proof.
  revert y. induction x as [|a x IH]; intros [|b y] Heq.
  - reflexivity.
  - rewrite string_app_nil, string_app_cons in Heq. injection Heq as _ Heq.
    destruct y; discriminate.
  - rewrite string_app_nil, string_app_cons in Heq. injection Heq as _ Heq.
    destruct x; discriminate.
  - rewrite !string_app_cons in Heq. injection Heq as -> Heq.
    f_equal. now apply IH.
Qed.

Lemma pretty_N_go_has_char (c : ascii) (x : N) (s : string) :
  (forall n, pretty_N_char n <> c) ->
  has_char c s = false -> has_char c (pretty_N_go x s) = false.
Proof.
  intros Hc. revert s. induction (N.lt_wf_0 x) as [x _ IH]; intros s Hs.
  destruct (decide (x = 0%N)) as [->|Hx]; [now rewrite pretty_N_go_0|].
  rewrite pretty_N_go_step by lia.
  apply IH; [apply N.div_lt; lia|].
  cbn [has_char].
  destruct (Ascii.eqb_spec c (pretty_N_char (x `mod` 10))) as [Heq|_]; [|exact Hs].
  now destruct (Hc (x `mod` 10)%N).
Qed.

Lemma pretty_Z_has_char (c : ascii) (z : Z) :
  (forall n, pretty_N_char n <> c) -> c <> "-"%char -> c <> "0"%char ->
  has_char c (pretty z) = false.
Proof.
  intros Hc Hdash Hzero.
  assert (Hpos : forall p, has_char c (pretty (N.pos p)) = false).
  { intros p. unfold pretty, pretty_N.
    destruct (decide (N.pos p = 0%N)); [discriminate|].
    now apply pretty_N_go_has_char. }
  destruct z as [|p|p]; unfold pretty, pretty_Z.
  - cbn. now destruct (Ascii.eqb_spec c "0"%char).
  - apply Hpos.
  - rewrite has_char_app.
    rewrite (Hpos p : has_char c (pretty p) = false). cbn. now destruct (Ascii.eqb_spec c "-"%char).
Qed.

Lemma percent_free_pretty (z : Z) : percent_free (pretty z).
Proof.
  apply pretty_Z_has_char; try discriminate.
  intros n. unfold pretty_N_char. repeat case_match; discriminate.
Qed.

Lemma percent_free_server_id_check (guild_id : Z) :
  percent_free (server_id_check guild_id).
Proof.
  unfold percent_free, server_id_check.
  rewrite !has_char_app. rewrite percent_free_pretty. reflexivity.
Qed.

(** The condition [server_id_check] writes tells the guilds apart and keeps
    the id inside its quotes: two ids give the same text only when they are
    the same id, and the digits written between the two quotes hold no quote
    and no percent sign. *)
Theorem server_id_check_text (guild_id : Z) :
  (forall other, server_id_check guild_id = server_id_check other <-> guild_id = other) /\
  exists digits,
    server_id_check guild_id = ("AND server_id = '" ++ digits ++ "'")%string /\
    has_char "'"%char digits = false /\
    percent_free digits.
Proof.
  split.
  - intros other. split; [|now intros ->].
    unfold server_id_check. intros Heq.
    apply (inj (String.app "AND server_id = '")) in Heq.
    apply app_char_inj in Heq. now apply (inj pretty).
  - exists (pretty guild_id). split; [reflexivity|]. split.
    + apply pretty_Z_has_char; try discriminate.
      intros n. unfold pretty_N_char. repeat case_match; discriminate.
    + apply percent_free_pretty.
Qed.

Section AccessorStatements.

Context {DB : Type} `{Cursor DB}.

Import DBHandler.

(** Every statement of [update_server_config] and of [update_team_config]
    has one placeholder and two variables, the new value and the value of
    the condition, when the key holds no percent sign. *)
Theorem accessor_update_placeholders (server_id : Z) (team_name key : string)
    (value : value) (w : world DB) :
  percent_free key ->
  (exists sql,
     update_server_config server_id key value w
     = bind (execute sql (Some [value; VInt server_id])) (fun _ => commit) w /\
     count_placeholders sql = 1) /\
  (exists sql,
     update_team_config server_id team_name key value w
     = bind (execute sql (Some [value; VStr team_name])) (fun _ => commit) w /\
     count_placeholders sql = 1).
Proof.
  intros Hkey. split.
  - exists (update_query "server_config" key (get_check "server_id" true) "").
    split.
    + unfold update_server_config, _update.
      apply (update_many_run _ _ _ [(KStr key, value)] [key]); [|reflexivity].
      unfold wf_dict. cbn. apply NoDup_singleton.
    + now apply placeholders_update_query.
  - exists (update_query "teams" key (get_check "team_name" true)
              (server_id_check server_id)).
    split.
    + unfold update_team_config, _update.
      apply (update_many_run _ _ _ [(KStr key, value)] [key]); [|reflexivity].
      unfold wf_dict. cbn. apply NoDup_singleton.
    + apply placeholders_update_query; try assumption; try reflexivity.
      apply percent_free_server_id_check.
Qed.

End AccessorStatements.

(** ** The start-up script *)

(** The token [run.py] hands to the bot, for a configuration that holds both
    tokens: the main token when the script is run without an argument, the
    test token when the first argument is [test], whatever follows it, and
    [None], with nothing printed and nothing raised, for any other first
    argument; that last case does not look at the configuration. Without
    a configuration document, or with an empty argument list, the script
    stops with [IndexError]. *)
Theorem token_choice (config tokens main_token test_token : value)
    (docs : list value) (prog arg : string) (rest : list string) :
  py_getitem config (VStr "tokens") = Ok tokens ->
  py_getitem tokens (VStr "main_token") = Ok main_token ->
  py_getitem tokens (VStr "test_token") = Ok test_token ->
  Run.token (config :: docs) [prog]
  = (["Starting bot with main token."], Ok main_token) /\
  Run.token (config :: docs) (prog :: "test" :: rest)
  = (["Starting bot with test token."], Ok test_token) /\
  (arg <> "test" ->
   forall any, Run.token (any :: docs) (prog :: arg :: rest) = ([], Ok VNone)) /\
  Run.token (config :: docs) [] = ([], Raise IndexError) /\
  Run.token [] (prog :: rest) = ([], Raise IndexError).
Proof.
  intros Htokens Hmain Htest. unfold Run.token. cbn [getitem nth_error length Nat.eqb].
  rewrite Htokens. cbn [result_bind]. rewrite Hmain, Htest.
  repeat split.
  intros Harg any. apply String.eqb_neq in Harg. now rewrite Harg.
Qed.

(** ** The team row *)

Lemma bound_at (py_str : value -> string) (d : pydict) (names : list string)
    (n : string) (v : value) :
  wf_dict d -> dict_keys d = map KStr names ->
  dict_get d (KStr n) = Some v ->
  exists i,
    nth_error names i = Some n /\
    nth_error (map (bound_value py_str) (dict_values d)) i = Some (bound_value py_str v).
Proof.
  intros Hwf Hkeys Hget.
  pose proof (dict_get_elem d _ _ Hget) as Hin.
  apply list_elem_of_In, In_nth_error in Hin as [i Hi].
  destruct (dict_entry_at d i _ Hi) as (v' & Hentry & Hv).
  apply (dict_get_in d _ _ Hwf) in Hentry.
  assert (v' = v) as -> by congruence.
  exists i. split.
  - rewrite Hkeys, nth_error_map in Hi.
    destruct (nth_error names i) as [n'|]; cbn in Hi; [|discriminate].
    now injection Hi as ->.
  - now rewrite nth_error_map, Hv.
Qed.

Section TeamConfig.

Context {DB : Type} `{Cursor DB}.
Variable py_str : value -> string.

Import DBHandler.

(** With a row for server 0, [add_team_config] inserts the true-valued
    entries of that row with the team name, the channel and the guild id
    put over them: the variable bound for ['team_name'] is the name, and the
    one for ['channels'] is the list of the one channel, bound as a list. *)
Theorem add_team_config_insert (guild_id : Z) (team_name : string) (channel : Z)
    (d : pydict) (names : list string) (w w' : world DB) :
  get_server_config 0 w = (Ok (VDict d), w') ->
  dict_keys
    (dict_set
       (dict_set (dict_set (filled d) (KStr "team_name") (VStr team_name))
          (KStr "channels") (VList [VInt channel]))
       (KStr "server_id") (VInt guild_id))
  = map KStr names ->
  exists vars i j,
    add_team_config py_str guild_id team_name channel w =
    bind
      (execute
         ("INSERT INTO " ++ "teams" ++ " " ++
          ("(" ++ join_strings ", " names ++ ")") ++
          " VALUES " ++
          ("(" ++ join_strings ", " (map (fun _ => "%s") names) ++ ")"))
         (Some vars))
      (fun _ => commit)
      (World (conn w')
         (<[stdpp.base.fresh (dom (store w'))
            := dict_set
                 (dict_set (dict_set (filled d) (KStr "team_name") (VStr team_name))
                    (KStr "channels") (VList [VInt channel]))
                 (KStr "server_id") (VInt guild_id)]> (store w'))
         (calls w')) /\
    length vars = length names /\
    nth_error names i = Some "team_name" /\
    nth_error vars i = Some (VStr team_name) /\
    nth_error names j = Some "channels" /\
    nth_error vars j = Some (VList [VInt channel]).
Proof.
  intros Hs Hkeys.
  set (tc := dict_set (dict_set (filled d) (KStr "team_name") (VStr team_name))
               (KStr "channels") (VList [VInt channel])) in *.
  set (d' := dict_set tc (KStr "server_id") (VInt guild_id)) in *.
  assert (Hwf : wf_dict d).
  { unfold get_server_config in Hs.
    destruct (search_one_value _ _ _ _ _ _ _ _ Hs) as [[=]|(d0 & [= <-] & Hwf)].
    exact Hwf. }
  assert (Hwftc : wf_dict tc) by (unfold tc; auto using wf_dict_set, wf_filled).
  assert (Hwf' : wf_dict d') by now apply wf_dict_set.
  assert (Hteam : dict_get d' (KStr "team_name") = Some (VStr team_name)).
  { unfold d', tc. rewrite !dict_get_set_ne by discriminate. apply dict_get_set_eq. }
  assert (Hchan : dict_get d' (KStr "channels") = Some (VList [VInt channel])).
  { unfold d', tc. rewrite dict_get_set_ne by discriminate. apply dict_get_set_eq. }
  destruct (bound_at py_str d' names _ _ Hwf' Hkeys Hteam) as (i & Hi & Hvi).
  destruct (bound_at py_str d' names _ _ Hwf' Hkeys Hchan) as (j & Hj & Hvj).
  exists (map (bound_value py_str) (dict_values d')), i, j.
  split.
  - unfold add_team_config. unfold bind at 1.
    rewrite get_template_config_run, Hs.
    unfold bind at 1. unfold lift at 1. cbn [py_setitem to_key result_bind].
    unfold bind at 1. unfold lift at 1. cbn [py_setitem to_key result_bind].
    fold tc. now apply add_object_run.
  - split; [|now repeat split].
    rewrite length_map. unfold dict_values. rewrite length_map.
    rewrite <- (length_map KStr names), <- Hkeys. unfold dict_keys.
    now rewrite length_map.
Qed.

End TeamConfig.

(** ** The player data *)

Section PlayerData.

Context {DB : Type} `{Cursor DB}.
Variable py_str : value -> string.

Import DBHandler.

(** [add_player_data] always executes the same [INSERT] with four
    placeholders, binding the name, the date, the availability and the
    server id in that order; an availability that is a dictionary is bound
    as its quoted text, any other as it is. The dictionary it builds is a
    new object: no dictionary that was in the store is changed. *)
Theorem add_player_data_statement (server_id : Z) (name date : string)
    (availability : value) (w : world DB) :
  add_player_data py_str server_id name date availability w =
  bind
    (execute
       "INSERT INTO player_data (name, date, availability, server_id) VALUES (%s, %s, %s, %s)"
       (Some [VStr name; VStr date; bound_value py_str availability; VInt server_id]))
    (fun _ => commit)
    (World (conn w)
       (<[stdpp.base.fresh (dom (store w))
          := [(KStr "name", VStr name); (KStr "date", VStr date);
              (KStr "availability", availability);
              (KStr "server_id", VInt server_id)]]> (store w))
       (calls w)) /\
  store w !! stdpp.base.fresh (dom (store w)) = None.
Proof.
  split.
  - unfold add_player_data.
    rewrite (add_object_run py_str "player_data" server_id _
               ["name"; "date"; "availability"; "server_id"]).
    + reflexivity.
    + unfold wf_dict. cbn. by apply (bool_decide_unpack _).
    + reflexivity.
  - apply not_elem_of_dom. apply is_fresh.
Qed.

(** The search of [get_player_data] binds the name and nothing else: the
    server id and the date are written into the text, the date only when
    one is given, and with a date that holds no percent sign the text has
    its one placeholder. *)
Theorem player_data_search (server_id : Z) (name date : string) (w : world DB) :
  percent_free date ->
  exists sql rest,
    calls (snd (get_player_data server_id name date w))
    = (calls w ++ Execute sql (Some [VStr name]) :: rest)%list /\
    sql = search_query "player_data" (get_check "name" false)
            (server_id_check server_id ++ " " ++
             (if String.eqb date "" then "" else "AND date = '" ++ date ++ "'")) /\
    count_placeholders sql = 1.
Proof.
  intros Hdate. unfold get_player_data. cbn [truthy_value].
  destruct (search_first_call "player_data" "name" (VStr name) false
              (server_id_check server_id ++ " " ++
               (if negb (String.eqb date "") then "AND date = '" ++ date ++ "'" else ""))
              false w) as [rest Hcalls].
  eexists _, rest. split; [exact Hcalls|].
  split; [now destruct (String.eqb date "")|].
  apply placeholders_search_query; try reflexivity.
  unfold percent_free in *. rewrite !has_char_app.
  rewrite percent_free_server_id_check. cbn [orb has_char Ascii.eqb Bool.eqb].
  destruct (String.eqb date ""); cbn [negb]; [reflexivity|].
  rewrite !has_char_app, Hdate. reflexivity.
Qed.

End PlayerData.

(** ** The further properties at the sample data *)

Import DBHandler.

Lemma dictify_lookup_witness :
  exists d,
    dictify [VInt 1001; VStr "alpha"; VNone] (map VStr ["server_id"; "team_name"]) = Ok d /\
    dict_keys d = map KStr ["server_id"; "team_name"] /\
    length d = length ["server_id"; "team_name"] /\
    forall i n, nth_error ["server_id"; "team_name"] i = Some n ->
                dict_get d (KStr n) = nth_error [VInt 1001; VStr "alpha"; VNone] i.
Proof.
  apply (dictify_lookup [VInt 1001; VStr "alpha"; VNone] ["server_id"; "team_name"]).
  - by apply (bool_decide_unpack _).
  - cbn. lia.
Defined.

Lemma dictify_index_error_witness :
  dictify [VInt 1001] [VStr "server_id"; VStr "team_name"] = Raise IndexError.
Proof.
  apply (dictify_index_error [VInt 1001] [VStr "server_id"; VStr "team_name"]
           [KStr "server_id"; KStr "team_name"]).
  - reflexivity.
  - cbn. lia.
Defined.

Lemma dictify_well_formed_witness :
  wf_dict [(KStr "name", VInt 2)] /\
  (forall k, k ∈ dict_keys [(KStr "name", VInt 2)] ->
             of_key k ∈ [VStr "name"; VStr "name"]) /\
  length [(KStr "name", VInt 2)] <= length [VStr "name"; VStr "name"].
Proof.
  apply (dictify_well_formed [VInt 1; VInt 2] [VStr "name"; VStr "name"]
           [(KStr "name", VInt 2)]).
  reflexivity.
Defined.

Lemma dictify_last_wins_witness :
  dict_get [(KStr "name", VInt 2)] (KStr "name") = nth_error [VInt 1; VInt 2] 1.
Proof.
  apply (dictify_last_wins [VInt 1; VInt 2] [VStr "name"; VStr "name"]
           [(KStr "name", VInt 2)] 1 (VStr "name") (KStr "name")).
  - reflexivity.
  - reflexivity.
  - reflexivity.
  - intros [|[|[|j]]] f' Hj Hf'; (lia || discriminate).
Defined.

Lemma format_sql_data_length_witness :
  length [[(KStr "server_id", VInt 1001); (KStr "team_name", VStr "alpha")];
          [(KStr "server_id", VInt 1001); (KStr "team_name", VStr "beta")]]
  = length teams_rows.
Proof.
  apply (format_sql_data_length "teams" (fresh (fetched teams_rows teams_columns))
           teams_rows
           (Script [Ok (Some (catalog_rows (map VStr teams_columns)))] (Some []))).
  - reflexivity.
  - reflexivity.
Defined.

Lemma get_teams_rows_witness :
  fst (get_teams 1001 (fresh (answering teams_rows teams_columns)))
  = Ok (VList (map (fun r => VDict (combine (map KStr ["server_id"; "team_name"])
                                      (slice_from 1 r))) teams_rows)).
Proof.
  apply (get_teams_rows 1001 (fresh (answering teams_rows teams_columns)) teams_rows
           "id" ["server_id"; "team_name"]
           (fetched teams_rows teams_columns)
           (fetched [] teams_columns)
           (Script [] (Some []))).
  - reflexivity.
  - reflexivity.
  - reflexivity.
  - by apply (bool_decide_unpack _).
  - by apply (bool_decide_unpack _).
  - repeat constructor.
Defined.

Lemma search_without_server_id_witness :
  fst (_search "plain" "name" (VStr "a") true "" false
         (fresh (answering [[VInt 1; VStr "a"]] ["id"; "name"])))
  = Raise IndexError /\
  forall s l,
    fst (_format_sql_data "plain"
           (World (fetched [[VInt 1; VStr "a"]] ["id"; "name"]) s l))
    = Raise IndexError.
Proof.
  apply (search_without_server_id "plain" "name" (VStr "a") true "" false
           (fresh (answering [[VInt 1; VStr "a"]] ["id"; "name"]))
           [VInt 1; VStr "a"] [] ["id"; "name"]
           (fetched [[VInt 1; VStr "a"]] ["id"; "name"])
           (fetched [] ["id"; "name"])
           (Script [] (Some []))).
  - reflexivity.
  - reflexivity.
  - reflexivity.
  - by apply (bool_decide_unpack _).
  - discriminate.
  - reflexivity.
Defined.

Lemma search_driver_error_witness :
  fst (_search "teams" "team_name" (VStr "alpha") true "" false (fresh refusing))
  = Raise (DriverError "syntax error") /\
  conn (snd (_search "teams" "team_name" (VStr "alpha") true "" false (fresh refusing)))
  = Script [] None.
Proof.
  apply (search_driver_error "teams" "team_name" (VStr "alpha") true "" false
           (fresh refusing) (DriverError "syntax error") (Script [] None)).
  left. reflexivity.
Defined.

Lemma search_placeholders_witness :
  exists sql vars rest,
    calls (snd (_search "teams" "team_name" (VStr "alpha") false "AND server_id = '1001'"
                  false (fresh (answering teams_rows teams_columns))))
    = (calls (fresh (answering teams_rows teams_columns))
       ++ Execute sql (Some vars) :: rest)%list /\
    count_placeholders sql = 1 /\ length vars = 1.
Proof.
  apply (search_placeholders "teams" "team_name" (VStr "alpha") false
           "AND server_id = '1001'" false (fresh (answering teams_rows teams_columns)));
    reflexivity.
Defined.

Lemma update_many_placeholders_witness :
  exists sql vars,
    _update_many "cache" "team_name" (VStr "alpha") cache_updates true
      "AND server_id = '1001'" (fresh accepting)
    = bind (execute sql (Some vars)) (fun _ => commit) (fresh accepting) /\
    count_placeholders sql = 1 /\
    length vars = S (length cache_updates).
Proof.
  apply (update_many_placeholders "cache" "team_name" (VStr "alpha") cache_updates
           ["players"; "last_saved"] true "AND server_id = '1001'" (fresh accepting)).
  - unfold wf_dict. cbn. by apply (bool_decide_unpack _).
  - reflexivity.
  - reflexivity.
  - repeat constructor.
  - reflexivity.
  - reflexivity.
Defined.

Lemma update_many_type_error_witness :
  _update_many "cache" "team_name" (VStr "alpha") odd_values true "" (fresh accepting)
  = (Raise TypeError, fresh accepting).
Proof.
  apply (update_many_type_error "cache" "team_name" (VStr "alpha") odd_values (KInt 3)
           true "" (fresh accepting)).
  - unfold wf_dict. cbn. by apply (bool_decide_unpack _).
  - by apply (bool_decide_unpack _).
  - discriminate.
Defined.

Lemma add_placeholders_witness :
  exists sql vars,
    _add repr "player_data" 1001 1%positive player_world =
    bind (execute sql (Some vars)) (fun _ => commit)
      (World (conn player_world)
         (<[1%positive := dict_set player_values (KStr "server_id") (VInt 1001)]>
            (store player_world))
         (calls player_world)) /\
    count_placeholders sql = length vars /\
    length vars = length ["name"; "date"; "availability"; "server_id"].
Proof.
  apply (add_placeholders repr "player_data" 1001 1%positive player_values
           ["name"; "date"; "availability"; "server_id"] player_world).
  - reflexivity.
  - unfold wf_dict. cbn. by apply (bool_decide_unpack _).
  - reflexivity.
  - reflexivity.
  - repeat constructor.
Defined.

Lemma add_server_id_field_witness :
  exists vars i,
    _add repr "player_data" 1001 1%positive claimed_world =
    bind
      (execute
         ("INSERT INTO " ++ "player_data" ++ " " ++
          ("(" ++ join_strings ", " ["name"; "server_id"; "date"] ++ ")") ++
          " VALUES " ++
          ("(" ++ join_strings ", " (map (fun _ => "%s") ["name"; "server_id"; "date"]) ++ ")"))
         (Some vars))
      (fun _ => commit)
      (World (conn claimed_world)
         (<[1%positive := dict_set claimed_values (KStr "server_id") (VInt 1001)]>
            (store claimed_world))
         (calls claimed_world)) /\
    vars = map (bound_value repr)
             (dict_values (dict_set claimed_values (KStr "server_id") (VInt 1001))) /\
    length vars = length ["name"; "server_id"; "date"] /\
    NoDup ["name"; "server_id"; "date"] /\
    nth_error ["name"; "server_id"; "date"] i = Some "server_id" /\
    nth_error vars i = Some (VInt 1001) /\
    (forall j, nth_error ["name"; "server_id"; "date"] j = Some "server_id" -> j = i).
Proof.
  apply (add_server_id_field repr "player_data" 1001 1%positive claimed_values
           ["name"; "server_id"; "date"] claimed_world).
  - reflexivity.
  - unfold wf_dict. cbn. by apply (bool_decide_unpack _).
  - reflexivity.
Defined.

Lemma add_type_error_witness :
  _add repr "cache" 1001 1%positive odd_world =
  (Raise TypeError,
   World (conn odd_world)
     (<[1%positive := dict_set odd_values (KStr "server_id") (VInt 1001)]>
        (store odd_world))
     (calls odd_world)).
Proof.
  apply (add_type_error repr "cache" 1001 1%positive odd_values (KInt 3) odd_world).
  - reflexivity.
  - unfold wf_dict. cbn. by apply (bool_decide_unpack _).
  - by apply (bool_decide_unpack _).
  - discriminate.
Defined.

Lemma add_twice_witness :
  let w1 := snd (_add repr "player_data" 1001 1%positive player_world) in
  let w2 := snd (_add repr "player_data" 2002 1%positive w1) in
  store w2 = <[1%positive := dict_set player_values (KStr "server_id") (VInt 2002)]>
               (store player_world) /\
  (1001%Z = 2002%Z -> store w2 = store w1).
Proof.
  apply (add_twice repr "player_data" "player_data" 1001 2002 1%positive player_values
           player_world).
  reflexivity.
Defined.

Lemma add_config_without_template_witness :
  add_server_config repr 1001 (fresh (answering [] server_config_columns))
  = (Raise TypeError, snd (get_server_config 0 (fresh (answering [] server_config_columns))))
  /\
  add_team_config repr 1001 "alpha" 42 (fresh (answering [] server_config_columns))
  = (Raise TypeError, snd (get_server_config 0 (fresh (answering [] server_config_columns)))).
Proof.
  apply (add_config_without_template repr 1001 "alpha" 42
           (fresh (answering [] server_config_columns))).
  reflexivity.
Defined.

Lemma add_server_config_insert_witness :
  let w := fresh (answering_then_accepting [template_row] server_config_columns) in
  let w' := snd (get_server_config 0 w) in
  let d := [(KStr "prefix", VStr "!"); (KStr "log_channel", VNone)] in
  add_server_config repr 1001 w =
  bind
    (execute
       ("INSERT INTO " ++ "server_config" ++ " " ++
        ("(" ++ join_strings ", " ["prefix"; "server_id"] ++ ")") ++
        " VALUES " ++
        ("(" ++ join_strings ", " (map (fun _ => "%s") ["prefix"; "server_id"]) ++ ")"))
       (Some (map (bound_value repr)
                (dict_values (dict_set (filled d) (KStr "server_id") (VInt 1001))))))
    (fun _ => commit)
    (World (conn w')
       (<[stdpp.base.fresh (dom (store w'))
          := dict_set (filled d) (KStr "server_id") (VInt 1001)]> (store w'))
       (calls w')) /\
  forall n v, (KStr n, v) ∈ d -> truthy_value v = false -> n <> "server_id" ->
              n ∉ ["prefix"; "server_id"].
Proof.
  apply (add_server_config_insert repr 1001
           [(KStr "prefix", VStr "!"); (KStr "log_channel", VNone)]
           ["prefix"; "server_id"]
           (fresh (answering_then_accepting [template_row] server_config_columns))).
  - reflexivity.
  - reflexivity.
Defined.

Lemma add_team_config_insert_witness :
  let w := fresh (answering_then_accepting [template_row] server_config_columns) in
  let w' := snd (get_server_config 0 w) in
  let names := ["prefix"; "team_name"; "channels"; "server_id"] in
  exists vars i j,
    add_team_config repr 1001 "alpha" 42 w =
    bind
      (execute
         ("INSERT INTO " ++ "teams" ++ " " ++
          ("(" ++ join_strings ", " names ++ ")") ++
          " VALUES " ++
          ("(" ++ join_strings ", " (map (fun _ => "%s") names) ++ ")"))
         (Some vars))
      (fun _ => commit)
      (World (conn w')
         (<[stdpp.base.fresh (dom (store w'))
            := dict_set
                 (dict_set
                    (dict_set (filled [(KStr "prefix", VStr "!"); (KStr "log_channel", VNone)])
                       (KStr "team_name") (VStr "alpha"))
                    (KStr "channels") (VList [VInt 42]))
                 (KStr "server_id") (VInt 1001)]> (store w'))
         (calls w')) /\
    length vars = length names /\
    nth_error names i = Some "team_name" /\
    nth_error vars i = Some (VStr "alpha") /\
    nth_error names j = Some "channels" /\
    nth_error vars j = Some (VList [VInt 42]).
Proof.
  apply (add_team_config_insert repr 1001 "alpha" 42
           [(KStr "prefix", VStr "!"); (KStr "log_channel", VNone)]
           ["prefix"; "team_name"; "channels"; "server_id"]
           (fresh (answering_then_accepting [template_row] server_config_columns))).
  - reflexivity.
  - reflexivity.
Defined.

Lemma sheet_cache_insert_witness :
  let w := fresh (answering_then_accepting [] cache_columns) in
  let w' := snd (_search "cache" "team_name" (VStr "alpha") true (server_id_check 1001)
                   false w) in
  update_sheet_cache repr "2019-07-01T10:00:00" 1001 "alpha" "players"
    (VDict [(KStr "unsorted_list", VList [])]) w =
  bind
    (execute
       ("INSERT INTO " ++ "cache" ++ " " ++
        ("(" ++ join_strings ", " ["players"; "last_saved"; "server_id"] ++ ")") ++
        " VALUES " ++
        ("(" ++ join_strings ", " ["%s"; "%s"; "%s"] ++ ")"))
       (Some [bound_value repr (VDict [(KStr "unsorted_list", VList [])]);
              VStr "2019-07-01T10:00:00"; VInt 1001]))
    (fun _ => commit)
    (World (conn w')
       (<[stdpp.base.fresh (dom (store w'))
          := [(KStr "players", VDict [(KStr "unsorted_list", VList [])]);
              (KStr "last_saved", VStr "2019-07-01T10:00:00");
              (KStr "server_id", VInt 1001)]]> (store w'))
       (calls w')).
Proof.
  apply (sheet_cache_insert repr "2019-07-01T10:00:00" 1001 "alpha" "players"
           (VDict [(KStr "unsorted_list", VList [])]) (VList [])
           (fresh (answering_then_accepting [] cache_columns))).
  - reflexivity.
  - reflexivity.
  - discriminate.
  - discriminate.
Defined.

Lemma sheet_cache_update_witness :
  let w := fresh (answering_then_accepting [cache_row] cache_columns) in
  let w' := snd (_search "cache" "team_name" (VStr "alpha") true (server_id_check 1001)
                   false w) in
  let value := VDict [(KStr "unsorted_list", VList [])] in
  ("players" <> "last_saved" ->
   update_sheet_cache repr "2019-07-01T10:00:00" 1001 "alpha" "players" value w =
   bind
     (execute
        (update_query "cache" ("players" ++ " AND " ++ "last_saved")
           (get_check "team_name" true) (server_id_check 1001))
        (Some [value; VStr "2019-07-01T10:00:00"; VStr "alpha"]))
     (fun _ => commit) w') /\
  ("players" = "last_saved" ->
   update_sheet_cache repr "2019-07-01T10:00:00" 1001 "alpha" "players" value w =
   bind
     (execute
        (update_query "cache" "last_saved"
           (get_check "team_name" true) (server_id_check 1001))
        (Some [VStr "2019-07-01T10:00:00"; VStr "alpha"]))
     (fun _ => commit) w').
Proof.
  apply (sheet_cache_update repr "2019-07-01T10:00:00" 1001 "alpha" "players"
           (VDict [(KStr "unsorted_list", VList [])])
           (VDict [(KStr "server_id", VInt 1001); (KStr "team_name", VStr "alpha");
                   (KStr "players", VStr "{}");
                   (KStr "last_saved", VStr "2019-06-30T09:00:00")])
           (fresh (answering_then_accepting [cache_row] cache_columns))).
  - reflexivity.
  - reflexivity.
Defined.

Lemma accessor_update_placeholders_witness :
  (exists sql,
     update_server_config 1001 "prefix" (VStr "?") (fresh accepting)
     = bind (execute sql (Some [VStr "?"; VInt 1001])) (fun _ => commit) (fresh accepting) /\
     count_placeholders sql = 1) /\
  (exists sql,
     update_team_config 1001 "alpha" "prefix" (VStr "?") (fresh accepting)
     = bind (execute sql (Some [VStr "?"; VStr "alpha"])) (fun _ => commit) (fresh accepting) /\
     count_placeholders sql = 1).
Proof.
  apply (accessor_update_placeholders 1001 "alpha" "prefix" (VStr "?") (fresh accepting)).
  reflexivity.
Defined.

Lemma token_choice_witness :
  Run.token [sample_config] ["run.py"]
  = (["Starting bot with main token."], Ok (VStr "main")) /\
  Run.token [sample_config] ("run.py" :: "test" :: ["now"])
  = (["Starting bot with test token."], Ok (VStr "test")) /\
  ("prod" <> "test" ->
   forall any, Run.token [any] ("run.py" :: "prod" :: ["now"]) = ([], Ok VNone)) /\
  Run.token [sample_config] [] = ([], Raise IndexError) /\
  Run.token [] ("run.py" :: ["now"]) = ([], Raise IndexError).
Proof.
  apply (token_choice sample_config
           (VDict [(KStr "main_token", VStr "main"); (KStr "test_token", VStr "test")])
           (VStr "main") (VStr "test") [] "run.py" "prod" ["now"]);
    reflexivity.
Defined.

Lemma player_data_search_witness :
  exists sql rest,
    calls (snd (get_player_data 1001 "Ann" "2019-07-01"
                  (fresh (answering [] ["id"; "server_id"; "name"]))))
    = (calls (fresh (answering [] ["id"; "server_id"; "name"]))
       ++ Execute sql (Some [VStr "Ann"]) :: rest)%list /\
    sql = search_query "player_data" (get_check "name" false)
            (server_id_check 1001 ++ " " ++
             (if String.eqb "2019-07-01" "" then ""
              else "AND date = '" ++ "2019-07-01" ++ "'")) /\
    count_placeholders sql = 1.
Proof.
  apply (player_data_search 1001 "Ann" "2019-07-01"
           (fresh (answering [] ["id"; "server_id"; "name"]))).
  reflexivity.
Defined.

(** ** More worked runs *)

(** The end-to-end case of a new server: the template row has a prefix and
    no log channel, and the row inserted for server 1001 has the prefix and
    the server id. *)
Example add_server_config_calls :
  calls (snd (add_server_config repr 1001
                (fresh (answering_then_accepting [template_row] server_config_columns))))
  = [Execute
       (nl ++ indent ++ "SELECT * FROM server_config" ++
        nl ++ indent ++ "WHERE server_id = %s " ++
        nl ++ indent)
       (Some [VInt 0]);
     Fetchall;
     Execute (catalog_query "server_config") None;
     Fetchall;
     Execute "INSERT INTO server_config (prefix, server_id) VALUES (%s, %s)"
       (Some [VStr "!"; VInt 1001]);
     Commit].
Proof. reflexivity. Qed.

(** A cache that is not there yet: the row is inserted without the team. *)
Example sheet_cache_first_save :
  calls (snd (update_sheet_cache repr "2019-07-01T10:00:00" 1001 "alpha" "players"
                (VDict [(KStr "unsorted_list", VList [])])
                (fresh (answering_then_accepting [] cache_columns))))
  = [Execute
       (search_query "cache" "WHERE team_name = %s" "AND server_id = '1001'")
       (Some [VStr "alpha"]);
     Fetchall;
     Execute (catalog_query "cache") None;
     Fetchall;
     Execute "INSERT INTO cache (players, last_saved, server_id) VALUES (%s, %s, %s)"
       (Some [VStr ("{" ++ dquote ++ "unsorted_list" ++ dquote ++ ": []}");
              VStr "2019-07-01T10:00:00"; VInt 1001]);
     Commit].
Proof. reflexivity. Qed.

(** Without a date the extra query of [get_player_data] ends in a space. *)
Example get_player_data_no_date :
  calls (snd (get_player_data 1001 "Ann" ""
                (fresh (answering [] ["id"; "server_id"; "name"]))))
  = [Execute
       (nl ++ indent ++ "SELECT * FROM player_data" ++
        nl ++ indent ++ "WHERE LOWER(name) = LOWER(%s) AND server_id = '1001' " ++
        nl ++ indent)
       (Some [VStr "Ann"]);
     Fetchall;
     Execute (catalog_query "player_data") None;
     Fetchall].
Proof. reflexivity. Qed.

(** A ['server_id'] the caller had set is replaced where it stands: the
    statement names it second and binds the guild id second. *)
Example add_over_server_id :
  calls (snd (_add repr "player_data" 1001 1%positive claimed_world))
  = [Execute "INSERT INTO player_data (name, server_id, date) VALUES (%s, %s, %s)"
       (Some [VStr "Ann"; VInt 1001; VStr "2019-07-01"]);
     Commit].
Proof. reflexivity. Qed.

(** No row and no catalog: the search raises. *)
Example search_catalog_down :
  _search "teams" "team_name" (VStr "gamma") true "" false (fresh catalog_down)
  = (Raise (DriverError "catalog down"),
     World (Script [] None) ∅
       [Execute (search_query "teams" "WHERE team_name = %s" "") (Some [VStr "gamma"]);
        Fetchall;
        Execute (catalog_query "teams") None]).
Proof. reflexivity. Qed.
